(** * Right-To-Repair: frame-quality gating and streaming hooks

    A shallow embedding of [frontend/lib/frameQuality.ts],
    [frontend/lib/useVideoHooks.ts] and of the callbacks, effects and
    result view of [frontend/components/LiveVideoAnalysis.tsx].

    JavaScript numbers are modelled as exact rationals extended with
    [NaN] and the two infinities; the rounding of IEEE doubles is not
    modelled.  [Math.sqrt] is kept as a parameter of the development. *)

From Stdlib Require Import ZArith QArith Qround Qabs Lqa String Ascii.
From stdpp Require Import base list gmap strings.

Local Open Scope Z_scope.

(** ** JavaScript numbers *)

Module Js.

Inductive number : Type :=
  | NaN
  | NegInf
  | Fin (q : Q)
  | PosInf.

Definition of_Z (z : Z) : number := Fin (inject_Z z).

(** Decimal literals of the source, e.g. [0.299] is [dec 299 1000]. *)
Definition dec (n : Z) (d : positive) : number := Fin (n # d).

Definition Qltb (a b : Q) : bool := negb (Qle_bool b a).

(** [a < b]; every comparison with [NaN] is false. *)
Definition lt (a b : number) : bool :=
  match a, b with
  | NaN, _ | _, NaN => false
  | NegInf, NegInf => false
  | NegInf, _ => true
  | _, NegInf => false
  | PosInf, _ => false
  | Fin _, PosInf => true
  | Fin x, Fin y => Qltb x y
  end.

Definition gt (a b : number) : bool := lt b a.

(** [a <= b]. *)
Definition le (a b : number) : bool :=
  match a, b with
  | NaN, _ | _, NaN => false
  | NegInf, _ => true
  | _, NegInf => false
  | _, PosInf => true
  | PosInf, _ => false
  | Fin x, Fin y => Qle_bool x y
  end.

(** [a >= b]. *)
Definition ge (a b : number) : bool :=
  match a, b with
  | NaN, _ | _, NaN => false
  | _, NegInf => true
  | NegInf, _ => false
  | PosInf, _ => true
  | Fin _, PosInf => false
  | Fin x, Fin y => Qle_bool y x
  end.

Definition add (a b : number) : number :=
  match a, b with
  | NaN, _ | _, NaN => NaN
  | PosInf, NegInf | NegInf, PosInf => NaN
  | PosInf, _ | _, PosInf => PosInf
  | NegInf, _ | _, NegInf => NegInf
  | Fin x, Fin y => Fin (x + y)
  end.

Definition sub (a b : number) : number :=
  match a, b with
  | NaN, _ | _, NaN => NaN
  | PosInf, PosInf | NegInf, NegInf => NaN
  | PosInf, _ | _, NegInf => PosInf
  | NegInf, _ | _, PosInf => NegInf
  | Fin x, Fin y => Fin (x - y)
  end.

(** The infinity with the sign of [q]; [NaN] for zero. *)
Definition inf_times (pos : bool) (q : Q) : number :=
  if Qltb 0 q then (if pos then PosInf else NegInf)
  else if Qltb q 0 then (if pos then NegInf else PosInf)
  else NaN.

Definition mul (a b : number) : number :=
  match a, b with
  | NaN, _ | _, NaN => NaN
  | PosInf, PosInf | NegInf, NegInf => PosInf
  | PosInf, NegInf | NegInf, PosInf => NegInf
  | PosInf, Fin y => inf_times true y
  | NegInf, Fin y => inf_times false y
  | Fin x, PosInf => inf_times true x
  | Fin x, NegInf => inf_times false x
  | Fin x, Fin y => Fin (x * y)
  end.

(** Division; the divisors of this program are counts and positive
    constants, so a zero divisor is the positive zero. *)
Definition div (a b : number) : number :=
  match a, b with
  | NaN, _ | _, NaN => NaN
  | Fin _, PosInf | Fin _, NegInf => Fin 0
  | PosInf, Fin y => if Qltb y 0 then NegInf else PosInf
  | NegInf, Fin y => if Qltb y 0 then PosInf else NegInf
  | PosInf, _ | NegInf, _ => NaN
  | Fin x, Fin y =>
      if Qeq_bool y 0 then inf_times true x else Fin (x / y)
  end.

Definition abs (a : number) : number :=
  match a with
  | NaN => NaN
  | NegInf | PosInf => PosInf
  | Fin x => Fin (Qabs x)
  end.

(** [Math.min] and [Math.max] of two arguments: [NaN] if either is. *)
Definition min (a b : number) : number :=
  match a, b with
  | NaN, _ | _, NaN => NaN
  | _, _ => if lt b a then b else a
  end.

Definition max (a b : number) : number :=
  match a, b with
  | NaN, _ | _, NaN => NaN
  | _, _ => if lt a b then b else a
  end.

(** [Math.round]: nearest integer, ties towards positive infinity. *)
Definition round (a : number) : number :=
  match a with
  | Fin x => of_Z (Qfloor (x + (1 # 2)))
  | other => other
  end.

(** [Math.pow(a, 2)]. *)
Definition pow2 (a : number) : number := mul a a.

(** Equality of values: rationals are compared up to [Qeq]. *)
Definition same (a b : number) : Prop :=
  match a, b with
  | NaN, NaN | NegInf, NegInf | PosInf, PosInf => True
  | Fin x, Fin y => (x == y)%Q
  | _, _ => False
  end.

End Js.

Import Js.

Declare Scope js_scope.
Delimit Scope js_scope with js.
Infix "+" := Js.add : js_scope.
Infix "-" := Js.sub : js_scope.
Infix "*" := Js.mul : js_scope.
Infix "/" := Js.div : js_scope.
Infix "<?" := Js.lt : js_scope.
Infix ">?" := Js.gt : js_scope.
Infix ">=?" := Js.ge : js_scope.
Infix "<=?" := Js.le : js_scope.
Coercion Js.of_Z : Z >-> Js.number.
Bind Scope js_scope with Js.number.

(** ** Counted loops

    [for (let i = start; i < bound; i += step) body] threading a state. *)

Fixpoint for_loop {S : Type} (fuel : nat) (i bound step : Z)
    (body : Z -> S -> S) (s : S) : S :=
  match fuel with
  | O => s
  | Datatypes.S fuel' =>
      if i <? bound
      then for_loop fuel' (i + step) bound step body (body i s)
      else s
  end.

(** A loop that starts at a non-negative index and advances by a
    positive step makes at most [bound] iterations. *)
Definition for_upto {S : Type} (bound step : Z) (body : Z -> S -> S) (s : S) : S :=
  for_loop (Z.to_nat bound) 0 bound step body s.

(** ** frameQuality.ts *)

(** [ImageData]: [data] is a [Uint8ClampedArray] of RGBA bytes. *)
Record ImageData : Type := mkImageData {
  data : list Z;
  width : Z;
  height : Z
}.

Definition byte_ok (b : Z) : Prop := 0 <= b <= 255.

(** What the canvas hands out: positive dimensions, [4 * width * height]
    bytes, each in [0, 255]. *)
Definition valid_image (img : ImageData) : Prop :=
  0 < width img /\ 0 < height img /\
  Z.of_nat (length (data img)) = 4 * width img * height img /\
  Forall byte_ok (data img).

(** [arr[i]] used in arithmetic: an index out of range reads
    [undefined], which arithmetic turns into [NaN]. *)
Definition rd (arr : list Z) (i : Z) : number :=
  if i <? 0 then NaN
  else match arr !! Z.to_nat i with
       | Some b => Js.of_Z b
       | None => NaN
       end.

Definition len (arr : list Z) : Z := Z.of_nat (length arr).

Record FrameMetrics : Type := mkFrameMetrics {
  brightness : number;
  contrast : number;
  sharpness : number;
  stability : number;
  score : number
}.

Section FrameQuality.

Variable Math_sqrt : number -> number.

Local Open Scope js_scope.

Definition estimateSharpness (imageData : ImageData) : number :=
  let data := data imageData in
  let width := width imageData in
  let height := height imageData in
  let '(totalGradient, count) :=
    for_upto (height - 4)%Z 4 (fun i =>
      for_upto (width - 4)%Z 4 (fun j '(totalGradient, count) =>
        let idx := ((i * width + j) * 4)%Z in
        let idxRight := ((i * width + j + 1) * 4)%Z in
        let idxDown := (((i + 1) * width + j) * 4)%Z in
        let gradX := Js.abs (rd data idx - rd data idxRight) in
        let gradY := Js.abs (rd data idx - rd data idxDown) in
        (totalGradient + Math_sqrt (gradX * gradX + gradY * gradY),
         (count + 1)%Z)))
      (Js.of_Z 0, 0%Z) in
  Js.min 255 ((totalGradient / count) * 2).

Definition luminosity (data : list Z) (i : Z) : number :=
  let r := rd data i in
  let g := rd data (i + 1)%Z in
  let b := rd data (i + 2)%Z in
  dec 299 1000 * r + dec 587 1000 * g + dec 114 1000 * b.

Definition estimateBrightness (imageData : ImageData) : number :=
  let data := data imageData in
  let sum :=
    for_upto (len data) 16 (fun i sum => sum + luminosity data i) 0 in
  sum / (len data / 16).

(** [pixels.reduce((a, b) => a + b)] without an initial value: throws
    on the empty array ([None]). *)
Definition reduce_add (pixels : list number) : option number :=
  match pixels with
  | [] => None
  | p :: rest => Some (fold_left Js.add rest p)
  end.

Definition estimateContrast (imageData : ImageData) : option number :=
  let data := data imageData in
  let pixels :=
    for_upto (len data) 16 (fun i pixels => pixels ++ [luminosity data i]) [] in
  match reduce_add pixels with
  | None => None
  | Some total =>
      let n := Js.of_Z (Z.of_nat (length pixels)) in
      let mean := total / n in
      let variance :=
        fold_left (fun sum p => sum + Js.pow2 (p - mean)) pixels 0 / n in
      Some (Math_sqrt variance)
  end.

Definition estimateStability (prevImageData : option ImageData)
    (currImageData : ImageData) : number :=
  match prevImageData with
  | None => 100
  | Some prevImageData =>
      let prev := data prevImageData in
      let curr := data currImageData in
      let '(totalDiff, count) :=
        for_upto (len prev) 16 (fun i '(totalDiff, count) =>
          let diff := Js.abs (rd prev i - rd curr i) in
          (totalDiff + diff, (count + 1)%Z))
          (Js.of_Z 0, 0%Z) in
      let avgDiff := totalDiff / count in
      Js.max 0 (100 - (avgDiff / 30) * 100)
  end.

(** The scoring part of [assessFrameQuality]: [score] starts at 100 and
    the four checks subtract from it in turn. *)
Definition quality_score (brightness contrast sharpness stability : number) : number :=
  let score : number := 100 in
  let score :=
    if (brightness <? 30) || (brightness >? 240) then score - 30
    else if (brightness <? 50) || (brightness >? 200) then score - 15
    else score in
  let score :=
    if contrast <? 20 then score - 20
    else if contrast <? 40 then score - 10
    else score in
  let score :=
    if sharpness <? 30 then score - 40
    else if sharpness <? 60 then score - 20
    else score in
  let score :=
    if stability <? 50 then score - 20
    else if stability <? 75 then score - 10
    else score in
  score.

(** [None] is the [TypeError] of [estimateContrast] on an empty buffer. *)
Definition assessFrameQuality (imageData : ImageData)
    (prevImageData : option ImageData) : option FrameMetrics :=
  let brightness := estimateBrightness imageData in
  match estimateContrast imageData with
  | None => None
  | Some contrast =>
      let sharpness := estimateSharpness imageData in
      let stability := estimateStability prevImageData imageData in
      let score := quality_score brightness contrast sharpness stability in
      Some {| brightness := Js.round brightness;
              contrast := Js.round contrast;
              sharpness := Js.round sharpness;
              stability := Js.round stability;
              score := Js.max 0 (Js.round score) |}
  end.

Definition isFrameGoodQuality (metrics : FrameMetrics) (threshold : number) : bool :=
  score metrics >=? threshold.

End FrameQuality.

(** ** The scoring table of the specification

    Penalties as integers, one function per row pair of the table. *)

Module Spec.

Local Open Scope js_scope.

Definition brightness_penalty (b : number) : Z :=
  if (b <? 30) || (b >? 240) then 30
  else if (b <? 50) || (b >? 200) then 15
  else 0.

Definition contrast_penalty (c : number) : Z :=
  if c <? 20 then 20 else if c <? 40 then 10 else 0.

Definition sharpness_penalty (s : number) : Z :=
  if s <? 30 then 40 else if s <? 60 then 20 else 0.

Definition stability_penalty (st : number) : Z :=
  if st <? 50 then 20 else if st <? 75 then 10 else 0.

Definition composite (b c s st : number) : Z :=
  Z.max 0 (100 - brightness_penalty b - contrast_penalty c
               - sharpness_penalty s - stability_penalty st).

End Spec.


(** ** Sample buffers *)

Definition uniform (w h : Z) (r g b : Z) : ImageData :=
  {| data := concat (repeat [r; g; b; 255] (Z.to_nat (w * h)));
     width := w; height := h |}.

Definition black8 : ImageData := uniform 8 8 0 0 0.
Definition black4 : ImageData := uniform 4 4 0 0 0.
Definition white1 : ImageData := uniform 1 1 255 255 255.
Definition black1 : ImageData := uniform 1 1 0 0 0.
Definition cyan1 : ImageData := uniform 1 1 0 255 255.

(** ** Stability in the words of the specification

    The average absolute difference of a per-sample value between two
    buffers, over every fourth pixel, mapped linearly onto [0, 100]. *)

Module StabilitySpec.

Local Open Scope js_scope.

(** Sample offsets [0, 16, 32, ...] below [n]. *)
Definition offsets (n : Z) : list Z :=
  map (fun k => 16 * Z.of_nat k)%Z (seq 0 (Z.to_nat ((n + 15) / 16))).

Definition sum (xs : list number) : number := fold_left Js.add xs 0.

Definition avg_abs_diff (sample : list Z -> Z -> number)
    (prev curr : list Z) : number :=
  let diffs := map (fun i => Js.abs (sample prev i - sample curr i)) (offsets (len prev)) in
  sum diffs / Js.of_Z (Z.of_nat (length diffs)).

Definition linear_map (avgDiff : number) : number :=
  Js.max 0 (100 - (avgDiff / 30) * 100).

(** The sample is the luminance [0.299 R + 0.587 G + 0.114 B]. *)
Definition stability_of_luminance (prev : option ImageData) (curr : ImageData) : number :=
  match prev with
  | None => 100
  | Some prev => linear_map (avg_abs_diff luminosity (data prev) (data curr))
  end.

(** The sample is the byte at the offset itself, the red channel. *)
Definition stability_of_red (prev : option ImageData) (curr : ImageData) : number :=
  match prev with
  | None => 100
  | Some prev => linear_map (avg_abs_diff rd (data prev) (data curr))
  end.

End StabilitySpec.

(** ** Effects of the hooks

    A hook body runs against the hook's state and either returns or
    throws; [try_catch] is the [try { } catch (e) { }] of the source. *)

Inductive outcome (S A : Type) : Type :=
  | Returned (a : A) (s : S)
  | Thrown (e : string) (s : S).
Arguments Returned {S A} a s.
Arguments Thrown {S A} e s.

Definition Eff (S A : Type) : Type := S -> outcome S A.

#[export] Instance eff_ret {S} : MRet (Eff S) := fun A a s => Returned a s.
#[export] Instance eff_bind {S} : MBind (Eff S) := fun A B f m s =>
  match m s with
  | Returned a s' => f a s'
  | Thrown e s' => Thrown e s'
  end.

Definition throw {S A} (e : string) : Eff S A := fun s => Thrown e s.
Definition get {S} : Eff S S := fun s => Returned s s.
Definition modify {S} (f : S -> S) : Eff S unit := fun s => Returned tt (f s).
Definition try_catch {S A} (m : Eff S A) (handler : string -> Eff S A) : Eff S A :=
  fun s => match m s with
           | Returned a s' => Returned a s'
           | Thrown e s' => handler e s'
           end.

(** The state a hook body leaves behind, returned or thrown. *)
Definition state_after {S A} (o : outcome S A) : S :=
  match o with Returned _ s => s | Thrown _ s => s end.

(** ** useVideoHooks.ts: useVideoStream *)

Module VideoStream.

(** The mounted [<video>]; [picture] is what it shows now, and its
    dimensions are [videoWidth] and [videoHeight]. *)
Record HTMLVideoElement : Type := { picture : ImageData }.

(** The mounted [<canvas>]; [getContext('2d')] may yield [null]. *)
Record HTMLCanvasElement : Type := { context2d : bool }.

Record State : Type := mkState {
  videoRef : option HTMLVideoElement;
  canvasRef : option HTMLCanvasElement;
  streamRef : option (list nat);          (* the MediaStream, as its tracks *)
  prevImageDataRef : option ImageData;
  isStreaming : bool;
  error : option string;
  frameMetrics : option FrameMetrics;
  captureTimer : option Z;                (* the running setInterval, if any *)
  liveTracks : gset nat;                  (* camera tracks not yet stopped *)
  console : list string;
  onFrameCalls : list (string * FrameMetrics)
}.

Definition set_streamRef v (s : State) : State :=
  mkState (videoRef s) (canvasRef s) v (prevImageDataRef s) (isStreaming s)
    (error s) (frameMetrics s) (captureTimer s) (liveTracks s) (console s) (onFrameCalls s).
Definition set_prevImageDataRef v (s : State) : State :=
  mkState (videoRef s) (canvasRef s) (streamRef s) v (isStreaming s)
    (error s) (frameMetrics s) (captureTimer s) (liveTracks s) (console s) (onFrameCalls s).
Definition setIsStreaming v (s : State) : State :=
  mkState (videoRef s) (canvasRef s) (streamRef s) (prevImageDataRef s) v
    (error s) (frameMetrics s) (captureTimer s) (liveTracks s) (console s) (onFrameCalls s).
Definition setError v (s : State) : State :=
  mkState (videoRef s) (canvasRef s) (streamRef s) (prevImageDataRef s) (isStreaming s)
    v (frameMetrics s) (captureTimer s) (liveTracks s) (console s) (onFrameCalls s).
Definition setFrameMetrics v (s : State) : State :=
  mkState (videoRef s) (canvasRef s) (streamRef s) (prevImageDataRef s) (isStreaming s)
    (error s) v (captureTimer s) (liveTracks s) (console s) (onFrameCalls s).
Definition set_captureTimer v (s : State) : State :=
  mkState (videoRef s) (canvasRef s) (streamRef s) (prevImageDataRef s) (isStreaming s)
    (error s) (frameMetrics s) v (liveTracks s) (console s) (onFrameCalls s).
Definition set_liveTracks v (s : State) : State :=
  mkState (videoRef s) (canvasRef s) (streamRef s) (prevImageDataRef s) (isStreaming s)
    (error s) (frameMetrics s) (captureTimer s) v (console s) (onFrameCalls s).
Definition console_log (line : string) (s : State) : State :=
  mkState (videoRef s) (canvasRef s) (streamRef s) (prevImageDataRef s) (isStreaming s)
    (error s) (frameMetrics s) (captureTimer s) (liveTracks s) (console s ++ [line]) (onFrameCalls s).
Definition call_onFrame (frame : string) (metrics : FrameMetrics) (s : State) : State :=
  mkState (videoRef s) (canvasRef s) (streamRef s) (prevImageDataRef s) (isStreaming s)
    (error s) (frameMetrics s) (captureTimer s) (liveTracks s) (console s)
    (onFrameCalls s ++ [(frame, metrics)]).
Definition set_picture (f : ImageData) (s : State) : State :=
  mkState (match videoRef s with Some _ => Some {| picture := f |} | None => None end)
    (canvasRef s) (streamRef s) (prevImageDataRef s) (isStreaming s)
    (error s) (frameMetrics s) (captureTimer s) (liveTracks s) (console s) (onFrameCalls s).

(** [track.stop()] for each track of a stream. *)
Definition stop_tracks (tracks : list nat) (s : State) : State :=
  set_liveTracks (liveTracks s ∖ list_to_set tracks) s.

Section Hook.

Variable Math_sqrt : number -> number.

(** The base64 JPEG encoding behind [canvas.toDataURL('image/jpeg', 0.85)]. *)
Variable jpeg_base64 : ImageData -> string.

(** Options of the hook: [onFrame] given or not, [frameInterval], [minQuality]. *)
Variable onFrame : bool.
Variable frameInterval : Z.
Variable minQuality : number.

(** A canvas without pixels serialises to ["data:,"]. *)
Definition toDataURL (canvas : ImageData) : string :=
  if (width canvas =? 0)%Z || (height canvas =? 0)%Z then "data:,"
  else "data:image/jpeg;base64," +:+ jpeg_base64 canvas.

(** [ctx.getImageData(0, 0, w, h)] throws on an empty rectangle. *)
Definition getImageData (canvas : ImageData) : Eff State ImageData :=
  if (width canvas =? 0)%Z || (height canvas =? 0)%Z
  then throw "IndexSizeError"
  else mret canvas.

(** [getUserMedia] answers with an error message or with a stream of
    live tracks. *)
Definition startStream (answer : string + list nat) : Eff State unit :=
  match answer with
  | inr stream =>
      modify (fun s => set_liveTracks (liveTracks s ∪ list_to_set stream) s);;
      s ← get;
      match videoRef s with
      | Some _ =>
          modify (set_streamRef (Some stream));;
          modify (setIsStreaming true);;
          modify (setError None)
      | None => mret tt
      end
  | inl message =>
      modify (setError (Some message));;
      modify (setIsStreaming false)
  end.

Definition stopStream : Eff State unit :=
  s ← get;
  match streamRef s with
  | Some tracks =>
      modify (stop_tracks tracks);;
      modify (set_streamRef None);;
      modify (setIsStreaming false)
  | None => mret tt
  end.

Definition captureFrame : Eff State (option string) :=
  s ← get;
  match videoRef s, canvasRef s with
  | Some video, Some canvas =>
      if negb (context2d canvas) then mret None
      else mret (Some (toDataURL (picture video)))
  | _, _ => mret None
  end.

Definition captureFrameWithQuality : Eff State (option (string * FrameMetrics)) :=
  s ← get;
  match videoRef s, canvasRef s with
  | Some video, Some canvas =>
      if negb (context2d canvas) then mret None
      else
        imageData ← getImageData (picture video);
        match assessFrameQuality Math_sqrt imageData (prevImageDataRef s) with
        | None => throw "TypeError"
        | Some metrics =>
            modify (set_prevImageDataRef (Some imageData));;
            if isFrameGoodQuality metrics minQuality
            then mret (Some (toDataURL imageData, metrics))
            else mret None
        end
  | _, _ => mret None
  end.

Definition fallbackMetrics : FrameMetrics :=
  {| brightness := Js.of_Z 0; contrast := Js.of_Z 0; sharpness := Js.of_Z 0;
     stability := Js.of_Z 100; score := Js.of_Z 50 |}.

(** The callback given to [setInterval]. *)
Definition capture_tick : Eff State unit :=
  result ← captureFrameWithQuality;
  match result with
  | Some (frame, metrics) =>
      modify (console_log "Frame captured");;
      modify (setFrameMetrics (Some metrics));;
      modify (call_onFrame frame metrics)
  | None =>
      fallbackFrame ← captureFrame;
      match fallbackFrame with
      | Some frame =>
          if String.eqb frame "" then mret tt
          else
            modify (console_log "Fallback frame captured");;
            modify (call_onFrame frame fallbackMetrics)
      | None => mret tt
      end
  end.

(** The camera shows [f], then the timer fires. *)
Definition tick_on (f : ImageData) : Eff State unit :=
  modify (set_picture f);; capture_tick.

Fixpoint ticks_on (frames : list ImageData) : Eff State unit :=
  match frames with
  | [] => mret tt
  | f :: rest => tick_on f;; ticks_on rest
  end.

(** A tick can capture when the video and the canvas are mounted and
    the canvas has a 2d context. *)
Definition can_capture (s : State) : Prop :=
  (exists video, videoRef s = Some video) /\
  exists canvas, canvasRef s = Some canvas /\ context2d canvas = true.

(** The frame has pixels and its assessment against [prev] fails
    [minQuality]. *)
Definition below_threshold (prev : option ImageData) (f : ImageData) : Prop :=
  width f <> 0%Z /\ height f <> 0%Z /\
  exists metrics, assessFrameQuality Math_sqrt f prev = Some metrics /\
                  isFrameGoodQuality metrics minQuality = false.

(** Consecutive frames, each assessed against the one before it. *)
Fixpoint all_below_threshold (prev : option ImageData) (frames : list ImageData) : Prop :=
  match frames with
  | [] => True
  | f :: rest => below_threshold prev f /\ all_below_threshold (Some f) rest
  end.

(** The auto-capture effect after a render: the clean-up of the
    previous run clears its interval, and the effect sets a new one
    only while [isStreaming && onFrame]. *)
Definition capture_effect (s : State) : State :=
  let s := set_captureTimer None s in
  if negb (isStreaming s) || negb onFrame then s
  else set_captureTimer (Some frameInterval) s.

(** The clean-up of the unmount effect. *)
Definition unmount_cleanup (s : State) : State :=
  match streamRef s with
  | Some tracks =>
      set_streamRef None (stop_tracks tracks (console_log "Cleanup: stopping camera stream" s))
  | None => s
  end.

(** [stop()] as the caller sees it: [stopStream], then the render its
    state change causes. *)
Definition stop (s : State) : State :=
  capture_effect (state_after (stopStream s)).

(** Unmount runs the clean-up of every effect. *)
Definition unmount (s : State) : State :=
  unmount_cleanup (set_captureTimer None s).

End Hook.

(** A session in progress: camera track 1 is live, the timer runs and
    one frame has been captured. *)
Definition streaming_state : State :=
  {| videoRef := Some {| picture := black8 |};
     canvasRef := Some {| context2d := true |};
     streamRef := Some [1%nat];
     prevImageDataRef := Some black8;
     isStreaming := true;
     error := None;
     frameMetrics := None;
     captureTimer := Some 3000;
     liveTracks := {[1%nat]};
     console := [];
     onFrameCalls := [] |}.

End VideoStream.

(** ** Messages of the vision service *)

(** The [result] object of a [complete] message. *)
Record DetectionData : Type := mkDetectionData {
  object : string;
  brand : option string;
  model : option string;
  condition : string;
  issues : list string;
  description : string;
  det_confidence : option number
}.

(** [VisionResult]; a field that is absent reads [undefined]. *)
Record VisionResult : Type := mkVisionResult {
  type : option string;
  token : option string;
  partial : option string;
  result : option DetectionData;
  confidence : option number;
  message : option string
}.

(** What [JSON.parse] returns when it does not throw: [null], or a value
    whose properties can be read. *)
Inductive JsonValue : Type :=
  | JNull
  | JObject (r : VisionResult).

(** [data.type === tag]. *)
Definition type_is (data : VisionResult) (tag : string) : bool :=
  match type data with
  | Some t => String.eqb t tag
  | None => false
  end.

(** ** Strings *)

(** [s.includes(c)] for a one-character [c]. *)
Fixpoint includes (c : ascii) (s : string) : bool :=
  match s with
  | EmptyString => false
  | String a rest => Ascii.eqb a c || includes c rest
  end.

(** [s.split(c)] for a one-character separator [c]. *)
Fixpoint split (c : ascii) (s : string) : list string :=
  match s with
  | EmptyString => [EmptyString]
  | String a rest =>
      if Ascii.eqb a c then EmptyString :: split c rest
      else match split c rest with
           | seg :: segs => String a seg :: segs
           | [] => [String a EmptyString]
           end
  end.

(** [d] starts with [data:image/<mime>;base64,]. *)
Definition has_data_uri_prefix (d : string) : Prop :=
  exists mime rest, d = "data:image/" +:+ mime +:+ ";base64," +:+ rest.

(** ** useVideoHooks.ts: useVisionWebSocket *)

Module VisionWebSocket.

Inductive ReadyState : Type := CONNECTING | OPEN | CLOSING | CLOSED.

Definition is_open (r : ReadyState) : bool :=
  match r with OPEN => true | _ => false end.

(** A message handed to [ws.send], before [JSON.stringify]. *)
Record OutMessage : Type := mkOutMessage {
  msg_type : string;
  msg_data : option string;
  msg_session_id : option string
}.

(** A [WebSocket] object: [listening] says that the four handlers
    [onopen], [onclose], [onerror], [onmessage] of [connect] are set. *)
Record WebSocket : Type := mkWebSocket {
  readyState : ReadyState;
  listening : bool;
  sent : list OutMessage
}.

(** The hook's state; [sockets] holds every [WebSocket] object created
    so far, and a handle is an index into it. *)
Record State : Type := mkState {
  sockets : list WebSocket;
  wsRef : option nat;
  isConnected : bool;
  currentResult : option VisionResult;
  isProcessing : bool;
  error : option string;
  console : list string;
  onResultCalls : list VisionResult
}.

Definition set_sockets v (s : State) : State :=
  mkState v (wsRef s) (isConnected s) (currentResult s) (isProcessing s)
    (error s) (console s) (onResultCalls s).
Definition set_wsRef v (s : State) : State :=
  mkState (sockets s) v (isConnected s) (currentResult s) (isProcessing s)
    (error s) (console s) (onResultCalls s).
Definition setIsConnected v (s : State) : State :=
  mkState (sockets s) (wsRef s) v (currentResult s) (isProcessing s)
    (error s) (console s) (onResultCalls s).
Definition setCurrentResult v (s : State) : State :=
  mkState (sockets s) (wsRef s) (isConnected s) v (isProcessing s)
    (error s) (console s) (onResultCalls s).
Definition setIsProcessing v (s : State) : State :=
  mkState (sockets s) (wsRef s) (isConnected s) (currentResult s) v
    (error s) (console s) (onResultCalls s).
Definition setError v (s : State) : State :=
  mkState (sockets s) (wsRef s) (isConnected s) (currentResult s) (isProcessing s)
    v (console s) (onResultCalls s).
Definition console_log (line : string) (s : State) : State :=
  mkState (sockets s) (wsRef s) (isConnected s) (currentResult s) (isProcessing s)
    (error s) (console s ++ [line]) (onResultCalls s).
Definition call_onResult (data : VisionResult) (s : State) : State :=
  mkState (sockets s) (wsRef s) (isConnected s) (currentResult s) (isProcessing s)
    (error s) (console s) (onResultCalls s ++ [data]).

(** Everything but the console. *)
Definition same_state (s t : State) : Prop :=
  sockets s = sockets t /\ wsRef s = wsRef t /\ isConnected s = isConnected t /\
  currentResult s = currentResult t /\ isProcessing s = isProcessing t /\
  error s = error t /\ onResultCalls s = onResultCalls t.

(** [wsRef.current?.readyState === WebSocket.OPEN]. *)
Definition current_open (s : State) : bool :=
  match wsRef s with
  | Some h => match sockets s !! h with
              | Some ws => is_open (readyState ws)
              | None => false
              end
  | None => false
  end.

Definition update_socket (h : nat) (f : WebSocket -> WebSocket) (s : State) : State :=
  match sockets s !! h with
  | Some ws => set_sockets (<[h := f ws]> (sockets s)) s
  | None => s
  end.

Definition set_readyState (r : ReadyState) (ws : WebSocket) : WebSocket :=
  mkWebSocket r (listening ws) (sent ws).

(** [ws.send(msg)]. *)
Definition ws_send (msg : OutMessage) (ws : WebSocket) : WebSocket :=
  mkWebSocket (readyState ws) (listening ws) (sent ws ++ [msg]).

(** [ws.close()]. *)
Definition ws_close (ws : WebSocket) : WebSocket :=
  match readyState ws with
  | CLOSED => ws
  | _ => set_readyState CLOSING ws
  end.

(** The [frameData] that [sendFrame] computes from its argument;
    [None] is the [undefined] of a missing second segment. *)
Definition strip_prefix (base64Frame : string) : option string :=
  if includes "," base64Frame
  then split "," base64Frame !! 1%nat
  else Some base64Frame.

Section Hook.

Variable JSON_parse : string -> option JsonValue.

(** [new WebSocket(url)] throws on a URL it cannot parse. *)
Variable url_valid : bool.

(** Options of the hook. *)
Variable sessionId : option string.
Variable onResult : bool.

Definition onopen : Eff State unit :=
  modify (setIsConnected true);;
  modify (setError None);;
  modify (console_log "WebSocket connected").

Definition onclose : Eff State unit :=
  modify (setIsConnected false);;
  modify (setIsProcessing false).

Definition onerror : Eff State unit :=
  modify (setError (Some "WebSocket error"));;
  modify (console_log "WebSocket error").

Definition onmessage (event_data : string) : Eff State unit :=
  try_catch
    (match JSON_parse event_data with
     | None => throw "SyntaxError"
     | Some JNull => throw "TypeError"
     | Some (JObject data) =>
         (if type_is data "processing_started" then
            modify (setIsProcessing true)
          else if type_is data "token" || type_is data "partial" then
            modify (setCurrentResult (Some data))
          else if type_is data "complete" then
            modify (setCurrentResult (Some data));;
            modify (setIsProcessing false)
          else if type_is data "error" || type_is data "dropped" then
            modify (setCurrentResult (Some data));;
            modify (setIsProcessing false)
          else if type_is data "low_confidence" || type_is data "quality_warning" then
            modify (setCurrentResult (Some data))
          else mret tt);;
         (if onResult then modify (call_onResult data) else mret tt)
     end)
    (fun e => modify (console_log ("Message parse error: " +:+ e))).

Definition connect : Eff State unit :=
  try_catch
    (if negb url_valid then throw "SyntaxError"
     else
       s ← get;
       let ws := length (sockets s) in
       modify (set_sockets (sockets s ++ [mkWebSocket CONNECTING true []]));;
       modify (set_wsRef (Some ws)))
    (fun e => modify (setError (Some e))).

Definition disconnect : Eff State unit :=
  s ← get;
  (if current_open s
   then match wsRef s with
        | Some h => modify (update_socket h ws_close)
        | None => mret tt
        end
   else mret tt);;
  modify (set_wsRef None);;
  modify (setIsConnected false);;
  modify (setIsProcessing false).

Definition sendFrame (base64Frame : string) : Eff State unit :=
  s ← get;
  if current_open s then
    frameData ← match strip_prefix base64Frame with
                | Some frameData => mret frameData
                | None => throw "TypeError"
                end;
    modify (console_log "Sending frame to WebSocket");;
    match wsRef s with
    | Some h =>
        modify (update_socket h
          (ws_send (mkOutMessage "frame" (Some frameData) sessionId)))
    | None => mret tt
    end
  else
    modify (console_log "WebSocket not open, cannot send frame").

Definition sendPing : Eff State unit :=
  s ← get;
  if current_open s then
    match wsRef s with
    | Some h => modify (update_socket h (ws_send (mkOutMessage "ping" None None)))
    | None => mret tt
    end
  else mret tt.

(** What the browser does with a socket, seen from the hook: an event
    first moves [readyState], then runs the handler if one is set. *)
Inductive Event : Type :=
  | EvOpen
  | EvClose
  | EvError
  | EvMessage (event_data : string).

Definition dispatch (h : nat) (ev : Event) : Eff State unit :=
  s ← get;
  match sockets s !! h with
  | None => mret tt
  | Some ws =>
      match ev with
      | EvOpen => modify (update_socket h (set_readyState OPEN))
      | EvClose => modify (update_socket h (set_readyState CLOSED))
      | _ => mret tt
      end;;
      if listening ws then
        match ev with
        | EvOpen => onopen
        | EvClose => onclose
        | EvError => onerror
        | EvMessage event_data => onmessage event_data
        end
      else mret tt
  end.

End Hook.

Definition initial : State := mkState [] None false None false None [] [].

(** A channel that is open and waiting for a result. *)
Definition processing_state : State :=
  mkState [mkWebSocket OPEN true []] (Some 0%nat) true None true None [] [].

(** Two calls of [connect], the first socket having opened in between. *)
Definition reconnected (JSON_parse : string -> option JsonValue) : State :=
  let s := state_after (connect true initial) in
  let s := state_after (dispatch JSON_parse false 0 EvOpen s) in
  state_after (connect true s).

(** A handle is live when its socket is not closed or closing. *)
Definition live (s : State) (h : nat) : Prop :=
  exists ws, sockets s !! h = Some ws /\
             (readyState ws = CONNECTING \/ readyState ws = OPEN).

(** A handle dangles when its handlers are still set although the hook
    no longer refers to it. *)
Definition dangling (s : State) (h : nat) : Prop :=
  wsRef s <> Some h /\
  exists ws, sockets s !! h = Some ws /\ listening ws = true.

End VisionWebSocket.

(** ** LiveVideoAnalysis.tsx: the result view *)

Module ResultView.

Local Open Scope js_scope.

(** [x || 0] on a possibly absent number. *)
Definition or_zero (x : option number) : number :=
  match x with
  | None => 0
  | Some NaN => 0
  | Some (Fin q) => if Qeq_bool q 0 then 0 else Fin q
  | Some other => other
  end.

(** [const confidence = detectionResult.confidence || 0]. *)
Definition confidence_of (detectionResult : DetectionData) : number :=
  or_zero (det_confidence detectionResult).

(** The icon of the header: [confidence >= 70 ? 'check_circle' : 'info']. *)
Definition header_icon (confidence : number) : string :=
  if confidence >=? 70 then "check_circle" else "info".

Definition header_background (confidence : number) : string :=
  if confidence >=? 70 then "bg-green-100" else "bg-amber-100".

(** The number shown in [Confidence: {Math.round(confidence * 100)}%]. *)
Definition confidence_percent (confidence : number) : number :=
  Js.round (confidence * 100).

End ResultView.

(** ** Sample messages *)

Definition sample_detection : DetectionData :=
  {| object := "laptop"; brand := None; model := None; condition := "damaged";
     issues := ["cracked screen"]; description := "";
     det_confidence := Some (Js.dec 82 100) |}.

Definition complete_message : VisionResult :=
  {| type := Some "complete"; token := None; partial := None;
     result := Some sample_detection; confidence := Some (Js.dec 82 100);
     message := None |}.

(** A parser that knows one message. *)
Definition sample_parse (event_data : string) : option JsonValue :=
  if String.eqb event_data "<complete 0.82>" then Some (JObject complete_message)
  else None.

(** ** Worsening of a metric

    Contrast, sharpness and stability get worse as they fall.
    Brightness gets worse as it moves away from the band [50, 200],
    downwards from a value at most 200 or upwards from one at least 50. *)

Module Worse.

Local Open Scope js_scope.

Definition lower (x' x : number) : Prop := (x' <=? x) = true.

Definition brightness (b' b : number) : Prop :=
  ((b' <=? b) = true /\ (b <=? 200) = true) \/
  ((b <=? b') = true /\ (50 <=? b) = true).

End Worse.

(** The [score] field that [assessFrameQuality] returns for the four
    raw metrics. *)
Definition returned_score (b c s st : number) : number :=
  Js.max (Js.of_Z 0) (Js.round (quality_score b c s st)).


(** ** frameQuality.ts: feedback *)

(** The string literals are those of the source file, byte for byte. *)

Definition getQualityFeedback (metrics : FrameMetrics) : string :=
  if Js.lt (brightness metrics) 30 then "Too dark - add more light"
  else if Js.gt (brightness metrics) 240 then "Too bright - reduce light"
  else if Js.lt (sharpness metrics) 30 then "Too blurry - focus camera"
  else if Js.lt (stability metrics) 50 then "Camera moving - hold steady"
  else if Js.ge (score metrics) 80 then "Perfect! âœ“"
  else if Js.ge (score metrics) 70 then "Good quality"
  else "Adjust camera position and lighting".

(** ** Ranges of numbers *)

(** A finite number between two integers. *)
Definition within (lo hi : Z) (x : number) : Prop :=
  exists q, x = Fin q /\ (inject_Z lo <= q)%Q /\ (q <= inject_Z hi)%Q.

(** A finite number that is not negative. *)
Definition non_negative (x : number) : Prop :=
  exists q, x = Fin q /\ (0 <= q)%Q.

(** What the development asks of [Math.sqrt]: a finite non-negative
    argument gives a finite non-negative result. *)
Definition sqrt_total (Math_sqrt : number -> number) : Prop :=
  forall q, (0 <= q)%Q -> non_negative (Math_sqrt (Fin q)).

(** A previous frame that [estimateStability] can compare with [curr]:
    none, or a valid one that is not longer than [curr]. *)
Definition comparable (prev : option ImageData) (curr : ImageData) : Prop :=
  match prev with
  | None => True
  | Some p => valid_image p /\ len (data p) <= len (data curr)
  end.

(** ** LiveVideoAnalysis.tsx: the component *)

Module LiveVideoAnalysis.

Inductive Mode : Type := setup | streaming | result_mode.

(** [handleFrame]: the two refs hold the flags of the last render. *)
Definition handleFrame (sessionId : option string)
    (isConnectedRef isProcessingRef : bool) (frame : string)
    : Eff VisionWebSocket.State unit :=
  modify (VisionWebSocket.console_log "handleFrame called");;
  if isConnectedRef && negb isProcessingRef then
    modify (VisionWebSocket.console_log "Sending frame...");;
    VisionWebSocket.sendFrame sessionId frame
  else
    modify (VisionWebSocket.console_log "Skipping frame").

(** [handleFrame] once the ref effects have run after a render. *)
Definition handleFrame_synced (sessionId : option string) (frame : string)
    : Eff VisionWebSocket.State unit :=
  s ← get;
  handleFrame sessionId (VisionWebSocket.isConnected s)
    (VisionWebSocket.isProcessing s) frame.

(** The part of the component's state that [onResult] writes. *)
Record View : Type := mkView {
  mode : Mode;
  detectionResult : option DetectionData
}.

(** The [onResult] callback given to [useVisionWebSocket]. *)
Definition onResult (r : VisionResult) (v : View) : View :=
  if type_is r "complete" then mkView result_mode (result r)
  else v.

(** What the result phase shows: the header icon and the confidence
    label, or nothing when the component returns [null]. *)
Definition result_phase (v : View) : option (string * number) :=
  match mode v, detectionResult v with
  | result_mode, Some d =>
      let confidence := ResultView.confidence_of d in
      Some (ResultView.header_icon confidence, ResultView.confidence_percent confidence)
  | _, _ => None
  end.






End LiveVideoAnalysis.

(** ** Sequences of calls *)

(** [sendFrame] called for each frame in turn. *)
Fixpoint send_all (sessionId : option string) (frames : list string)
    : Eff VisionWebSocket.State unit :=
  match frames with
  | [] => mret tt
  | f :: rest => VisionWebSocket.sendFrame sessionId f;; send_all sessionId rest
  end.

(** The message [sendFrame] builds for a frame. *)
Definition frame_message (sessionId : option string) (frame : string)
    : VisionWebSocket.OutMessage :=
  VisionWebSocket.mkOutMessage "frame" (VisionWebSocket.strip_prefix frame) sessionId.
(** ** Arithmetic on integer-valued numbers *)

Lemma sub_of_Z (a b : Z) : Js.sub (Js.of_Z a) (Js.of_Z b) = Js.of_Z (a - b).
Proof.
  unfold Js.of_Z, inject_Z; simpl. unfold Qminus, Qplus, Qopp; simpl.
  f_equal. f_equal. lia.
Qed.

Lemma Qltb_inject (a b : Z) : Js.Qltb (inject_Z a) (inject_Z b) = (a <? b).
Proof.
  unfold Js.Qltb, Qle_bool, inject_Z; simpl.
  rewrite !Z.mul_1_r. destruct (Z.leb_spec b a), (Z.ltb_spec a b); simpl; lia.
Qed.

Lemma lt_of_Z (a b : Z) : Js.lt (Js.of_Z a) (Js.of_Z b) = (a <? b).
Proof. apply Qltb_inject. Qed.

Lemma round_of_Z (z : Z) : Js.round (Js.of_Z z) = Js.of_Z z.
Proof.
  unfold Js.round, Js.of_Z at 1. f_equal.
  unfold Qfloor, Qplus, inject_Z; simpl.
  rewrite Z.mul_1_r.
  replace (z * 2 + 1) with (1 + z * 2) by lia.
  rewrite Z.div_add by lia. reflexivity.
Qed.

Lemma max_of_Z (a b : Z) : Js.max (Js.of_Z a) (Js.of_Z b) = Js.of_Z (Z.max a b).
Proof.
  unfold Js.max. change (Js.of_Z a) with (Fin (inject_Z a)) at 1.
  change (Js.of_Z b) with (Fin (inject_Z b)) at 1.
  cbv iota beta. fold (Js.of_Z a) (Js.of_Z b). rewrite lt_of_Z.
  destruct (Z.ltb_spec a b); f_equal; lia.
Qed.

(** The four checks of [quality_score] subtract exactly the penalties
    of the table. *)
Lemma quality_score_penalties (b c s st : number) :
  quality_score b c s st =
  Js.of_Z (100 - Spec.brightness_penalty b - Spec.contrast_penalty c
               - Spec.sharpness_penalty s - Spec.stability_penalty st).
Proof.
  unfold quality_score, Spec.brightness_penalty, Spec.contrast_penalty,
    Spec.sharpness_penalty, Spec.stability_penalty.
  destruct (_ || _); [|destruct (_ || _)];
    (destruct (Js.lt c _); [|destruct (Js.lt c _)]);
    (destruct (Js.lt s _); [|destruct (Js.lt s _)]);
    (destruct (Js.lt st _); [|destruct (Js.lt st _)]);
    rewrite ?sub_of_Z; reflexivity.
Qed.

Lemma penalties_range (b c s st : number) :
  0 <= Spec.brightness_penalty b <= 30 /\ 0 <= Spec.contrast_penalty c <= 20 /\
  0 <= Spec.sharpness_penalty s <= 40 /\ 0 <= Spec.stability_penalty st <= 20.
Proof.
  unfold Spec.brightness_penalty, Spec.contrast_penalty,
    Spec.sharpness_penalty, Spec.stability_penalty.
  repeat match goal with |- context [if ?x then _ else _] => destruct x end; lia.
Qed.

Lemma composite_range (b c s st : number) : 0 <= Spec.composite b c s st <= 100.
Proof.
  unfold Spec.composite. pose proof (penalties_range b c s st). lia.
Qed.

Lemma final_score (b c s st : number) :
  Js.max (Js.of_Z 0) (Js.round (quality_score b c s st)) =
  Js.of_Z (Spec.composite b c s st).
Proof.
  rewrite quality_score_penalties, round_of_Z, max_of_Z. reflexivity.
Qed.

(** ** Loops *)

Lemma for_loop_invariant {S : Type} (P : S -> Prop) (body : Z -> S -> S)
    (fuel : nat) (i bound step : Z) (s : S) :
  P s -> (forall j t, P t -> P (body j t)) ->
  P (for_loop fuel i bound step body s).
Proof.
  intros Hs Hbody. revert i s Hs.
  induction fuel as [|fuel IH]; intros i s Hs; simpl; [exact Hs|].
  destruct (i <? bound); [apply IH, Hbody, Hs | exact Hs].
Qed.

(** Once the loop has run out of indices, more fuel changes nothing:
    the fuel of [for_upto] is enough. *)
Lemma for_loop_enough {S : Type} (body : Z -> S -> S)
    (fuel extra : nat) (i bound step : Z) (s : S) :
  1 <= step -> bound - i <= Z.of_nat fuel ->
  for_loop (fuel + extra) i bound step body s = for_loop fuel i bound step body s.
Proof.
  intros Hstep. revert i s.
  induction fuel as [|fuel IH]; intros i s Hfuel.
  - destruct extra; simpl; [reflexivity|].
    destruct (Z.ltb_spec i bound); [lia | reflexivity].
  - simpl. destruct (Z.ltb_spec i bound); [|reflexivity].
    apply IH. lia.
Qed.

Lemma for_upto_enough {S : Type} (body : Z -> S -> S) (extra : nat)
    (bound step : Z) (s : S) :
  1 <= step ->
  for_loop (Z.to_nat bound + extra) 0 bound step body s = for_upto bound step body s.
Proof.
  intros Hstep. unfold for_upto. apply for_loop_enough; lia.
Qed.

Lemma for_upto_first {S : Type} (body : Z -> S -> S) (bound step : Z) (s : S) :
  0 < bound ->
  for_upto bound step body s =
  for_loop (Nat.pred (Z.to_nat bound)) step bound step body (body 0 s).
Proof.
  intros Hb. unfold for_upto.
  destruct (Z.to_nat bound) as [|n] eqn:E; [lia|].
  simpl. destruct (Z.ltb_spec 0 bound); [reflexivity | lia].
Qed.

(** ** The composite score (C1) *)

Lemma estimateContrast_returns (Math_sqrt : number -> number) (img : ImageData) :
  data img <> [] -> exists c, estimateContrast Math_sqrt img = Some c.
Proof.
  intros Hne. unfold estimateContrast.
  set (pixels := for_upto _ _ _ _).
  assert (Hpix : pixels <> []).
  { subst pixels. rewrite for_upto_first.
    - apply (for_loop_invariant (fun l : list number => l <> [])).
      + simpl. discriminate.
      + intros j t _. destruct t; discriminate.
    - unfold len. destruct (data img); [congruence | simpl; lia]. }
  destruct pixels as [|p rest]; [congruence|].
  simpl. eexists. reflexivity.
Qed.

(** C1. For every image with a non-empty buffer, [assessFrameQuality]
    returns metrics whose score is 100 minus the penalties of the table
    (30/15 for brightness, 20/10 for contrast, 40/20 for sharpness,
    20/10 for stability), floored at 0, and so lies in [0, 100]; the same
    holds of the scoring step for any four metric values. *)
Theorem assessFrameQuality_score (Math_sqrt : number -> number)
    (imageData : ImageData) (prevImageData : option ImageData) :
  data imageData <> [] ->
  (exists m c,
     estimateContrast Math_sqrt imageData = Some c /\
     assessFrameQuality Math_sqrt imageData prevImageData = Some m /\
     score m = Js.of_Z (Spec.composite (estimateBrightness imageData) c
                          (estimateSharpness Math_sqrt imageData)
                          (estimateStability prevImageData imageData))) /\
  (forall b c s st,
     returned_score b c s st = Js.of_Z (Spec.composite b c s st) /\
     0 <= Spec.composite b c s st <= 100).
Proof.
  intros Hne. split.
  - destruct (estimateContrast_returns Math_sqrt imageData Hne) as [c Hc].
    unfold assessFrameQuality. rewrite Hc.
    eexists; exists c. split; [reflexivity|]. split; [reflexivity|].
    simpl. apply final_score.
  - intros b c s st. split; [apply final_score | apply composite_range].
Qed.

Lemma assessFrameQuality_score_witness :
  data black8 <> [] /\
  exists m, assessFrameQuality (fun x => x) black8 None = Some m /\
            score m = Js.of_Z 10.
Proof.
  split; [discriminate|].
  destruct (assessFrameQuality_score (fun x => x) black8 None)
    as [[m [c [Hc [Hm Hs]]]] _]; [discriminate|].
  exists m. split; [exact Hm|].
  rewrite Hs.
  assert (Hb : Js.lt (estimateBrightness black8) 30 = true) by (lazy; reflexivity).
  assert (Hcon : match estimateContrast (fun x => x) black8 with
                 | Some c0 => Js.lt c0 20
                 | None => false
                 end = true) by (lazy; reflexivity).
  rewrite Hc in Hcon.
  assert (Hsh : Js.lt (estimateSharpness (fun x => x) black8) 30 = true)
    by (lazy; reflexivity).
  unfold Spec.composite, Spec.brightness_penalty, Spec.contrast_penalty,
    Spec.sharpness_penalty, Spec.stability_penalty.
  rewrite Hb, Hcon, Hsh. reflexivity.
Defined.

(** ** Monotonicity of the score (C8) *)

Lemma Qltb_true (x y : Q) : Js.Qltb x y = true <-> (x < y)%Q.
Proof.
  unfold Js.Qltb. rewrite negb_true_iff.
  split.
  - intros H. apply Qnot_le_lt. intros Hle.
    apply Qle_bool_iff in Hle. congruence.
  - intros H. destruct (Qle_bool y x) eqn:E; [|reflexivity].
    apply Qle_bool_iff in E. lra.
Qed.

Lemma le_lt_trans (a' a k : number) :
  Js.le a' a = true -> Js.lt a k = true -> Js.lt a' k = true.
Proof.
  destruct a', a, k; simpl; try discriminate; try reflexivity.
  intros H1 H2. apply Qle_bool_iff in H1. apply Qltb_true in H2.
  apply Qltb_true. lra.
Qed.

Lemma lt_le_trans (k a a' : number) :
  Js.lt k a = true -> Js.le a a' = true -> Js.lt k a' = true.
Proof.
  destruct k, a, a'; simpl; try discriminate; try reflexivity.
  intros H1 H2. apply Qle_bool_iff in H2. apply Qltb_true in H1.
  apply Qltb_true. lra.
Qed.

Lemma le_trans (a b c : number) :
  Js.le a b = true -> Js.le b c = true -> Js.le a c = true.
Proof.
  destruct a, b, c; simpl; try discriminate; try reflexivity.
  intros H1 H2. apply Qle_bool_iff in H1, H2. apply Qle_bool_iff. lra.
Qed.

Lemma le_not_gt (a k : number) : Js.le a k = true -> Js.lt k a = false.
Proof.
  destruct a, k; simpl; try discriminate; try reflexivity.
  intros H. unfold Js.Qltb. rewrite H. reflexivity.
Qed.

(** A threshold that a value is below is also above every lower value. *)
Ltac below_threshold :=
  repeat match goal with
  | Hle : Js.le ?x' ?x = true, Hlt : Js.lt ?x ?k = true, Hn : Js.lt ?x' ?k = false |- _ =>
      rewrite (le_lt_trans x' x k Hle Hlt) in Hn; discriminate
  | Hle : Js.le ?x ?x' = true, Hlt : Js.lt ?k ?x = true, Hn : Js.lt ?k ?x' = false |- _ =>
      rewrite (lt_le_trans k x x' Hlt Hle) in Hn; discriminate
  end.

Lemma step_penalty_mono (x' x : number) (k1 k2 : Z) (p1 p2 : Z) :
  Worse.lower x' x -> 0 <= p2 <= p1 ->
  (if Js.lt x (Js.of_Z k1) then p1 else if Js.lt x (Js.of_Z k2) then p2 else 0)
  <= (if Js.lt x' (Js.of_Z k1) then p1 else if Js.lt x' (Js.of_Z k2) then p2 else 0).
Proof.
  unfold Worse.lower. intros Hle Hp.
  destruct (Js.lt x (Js.of_Z k1)) eqn:E1, (Js.lt x' (Js.of_Z k1)) eqn:E1';
    destruct (Js.lt x (Js.of_Z k2)) eqn:E2, (Js.lt x' (Js.of_Z k2)) eqn:E2';
    try lia; below_threshold.
Qed.

Lemma brightness_penalty_mono (b' b : number) :
  Worse.brightness b' b -> Spec.brightness_penalty b <= Spec.brightness_penalty b'.
Proof.
  unfold Spec.brightness_penalty, Js.gt.
  intros [[Hle Hband] | [Hle Hband]].
  - rewrite (le_not_gt b (Js.of_Z 200) Hband).
    assert (H240 : Js.lt (Js.of_Z 240) b = false).
    { apply le_not_gt. apply (le_trans _ _ _ Hband). reflexivity. }
    rewrite H240, !orb_false_r.
    destruct (Js.lt b (Js.of_Z 30)) eqn:E1, (Js.lt b' (Js.of_Z 30)) eqn:E1';
      destruct (Js.lt b (Js.of_Z 50)) eqn:E2, (Js.lt b' (Js.of_Z 50)) eqn:E2';
      cbn [orb]; repeat (destruct (Js.lt _ b')); cbn [orb]; try lia; below_threshold.
  - assert (H50 : Js.lt b (Js.of_Z 50) = false) by (apply le_not_gt, Hband).
    assert (H30 : Js.lt b (Js.of_Z 30) = false).
    { apply le_not_gt. apply (le_trans _ (Js.of_Z 50)); [reflexivity | exact Hband]. }
    rewrite H50, H30. cbn [orb].
    destruct (Js.lt (Js.of_Z 240) b) eqn:E1, (Js.lt (Js.of_Z 240) b') eqn:E1';
      destruct (Js.lt (Js.of_Z 200) b) eqn:E2, (Js.lt (Js.of_Z 200) b') eqn:E2';
      cbn [orb]; repeat (destruct (Js.lt b' _)); cbn [orb]; try lia; below_threshold.
Qed.

Lemma of_Z_le (a b : Z) : a <= b -> Js.le (Js.of_Z a) (Js.of_Z b) = true.
Proof.
  intros H. simpl. unfold Qle_bool, inject_Z; simpl.
  rewrite !Z.mul_1_r. apply Z.leb_le, H.
Qed.

(** C8. The returned score does not increase when one metric worsens
    and the other three are held fixed: brightness moving away from
    the band [50, 200], or contrast, sharpness or stability falling;
    in particular sharpness falling from 70 to 20. *)
Theorem score_monotone (b c s st : number) :
  (forall b', Worse.brightness b' b ->
     Js.le (returned_score b' c s st) (returned_score b c s st) = true) /\
  (forall c', Worse.lower c' c ->
     Js.le (returned_score b c' s st) (returned_score b c s st) = true) /\
  (forall s', Worse.lower s' s ->
     Js.le (returned_score b c s' st) (returned_score b c s st) = true) /\
  (forall st', Worse.lower st' st ->
     Js.le (returned_score b c s st') (returned_score b c s st) = true) /\
  Js.le (returned_score b c (Js.of_Z 20) st) (returned_score b c (Js.of_Z 70) st) = true.
Proof.
  assert (Hc : forall c', Worse.lower c' c ->
            Spec.contrast_penalty c <= Spec.contrast_penalty c')
    by (intros; apply step_penalty_mono; [assumption | lia]).
  assert (Hs : forall s0 s', Worse.lower s' s0 ->
            Spec.sharpness_penalty s0 <= Spec.sharpness_penalty s')
    by (intros; apply step_penalty_mono; [assumption | lia]).
  assert (Hst : forall st', Worse.lower st' st ->
            Spec.stability_penalty st <= Spec.stability_penalty st')
    by (intros; apply step_penalty_mono; [assumption | lia]).
  unfold returned_score. rewrite !final_score.
  repeat split; intros; rewrite ?final_score; apply of_Z_le; unfold Spec.composite.
  - pose proof (brightness_penalty_mono _ _ H). lia.
  - pose proof (Hc _ H). lia.
  - pose proof (Hs s _ H). lia.
  - pose proof (Hst _ H). lia.
  - assert (Worse.lower (Js.of_Z 20) (Js.of_Z 70)) by reflexivity.
    pose proof (Hs (Js.of_Z 70) _ H). lia.
Qed.

Lemma score_monotone_witness :
  Worse.lower (Js.of_Z 20) (Js.of_Z 70) /\
  Js.le (returned_score (Js.of_Z 128) (Js.of_Z 50) (Js.of_Z 20) (Js.of_Z 100))
        (returned_score (Js.of_Z 128) (Js.of_Z 50) (Js.of_Z 70) (Js.of_Z 100)) = true.
Proof.
  split; [reflexivity|].
  destruct (score_monotone (Js.of_Z 128) (Js.of_Z 50) (Js.of_Z 70) (Js.of_Z 100))
    as (_ & _ & Hsharp & _).
  apply Hsharp. reflexivity.
Defined.

(** ** Small buffers (C2) *)

Lemma for_upto_no_iteration {S : Type} (bound step : Z) (body : Z -> S -> S) (s : S) :
  bound <= 0 -> for_upto bound step body s = s.
Proof.
  intros H. unfold for_upto.
  replace (Z.to_nat bound) with O by lia. reflexivity.
Qed.

Lemma valid_uniform (w h r g b : Z) :
  0 < w -> 0 < h -> byte_ok r -> byte_ok g -> byte_ok b ->
  valid_image (uniform w h r g b).
Proof.
  intros Hw Hh Hr Hg Hb. unfold valid_image, uniform; simpl.
  repeat split; try lia.
  - assert (Hlen : forall n : nat,
              Z.of_nat (length (concat (repeat [r; g; b; 255] n))) = 4 * Z.of_nat n).
    { induction n as [|n IH]; cbn [repeat concat app length] in *; lia. }
    rewrite Hlen. nia.
  - induction (Z.to_nat (w * h)) as [|n IH]; simpl; [constructor|].
    repeat (constructor; [first [assumption | unfold byte_ok; lia]|]).
    exact IH.
Qed.

(** C2, the defects.  A frame at most 4 pixels wide or high gives no
    sample to [estimateSharpness], which then divides 0 by 0 and returns
    [NaN], and so does the [sharpness] of the assessed metrics.  On a
    valid 1x1 white frame [estimateBrightness] divides its one sample
    by [4 / 16] and returns 1020.  A previous frame longer than the
    current one makes [estimateStability] read past the end of the
    current buffer and return [NaN]. *)
Theorem small_frame_metrics (Math_sqrt : number -> number) (img : ImageData) :
  (width img <= 4 \/ height img <= 4 ->
   estimateSharpness Math_sqrt img = NaN /\
   (data img <> [] ->
    forall prev, exists m,
      assessFrameQuality Math_sqrt img prev = Some m /\ sharpness m = NaN)) /\
  (valid_image white1 /\
   Js.same (estimateBrightness white1) (Js.of_Z 1020)) /\
  (valid_image black8 /\ valid_image black1 /\
   estimateStability (Some black8) black1 = NaN).
Proof.
  split; [|split].
  - intros Hsmall.
    assert (Hsharp : estimateSharpness Math_sqrt img = NaN).
    { unfold estimateSharpness.
      set (inner := fun i : Z => for_upto _ _ _).
      assert (Hloop : for_upto (height img - 4) 4 inner (Js.of_Z 0, 0) = (Js.of_Z 0, 0)).
      { destruct (Z.le_gt_cases (height img) 4) as [Hh | Hh].
        - apply for_upto_no_iteration. lia.
        - assert (Hw : width img <= 4) by lia.
          unfold for_upto at 1.
          apply (for_loop_invariant (fun st => st = (Js.of_Z 0, 0))); [reflexivity|].
          intros j t ->. subst inner. cbv beta.
          apply for_upto_no_iteration. lia. }
      rewrite Hloop. reflexivity. }
    split; [exact Hsharp|].
    intros Hne prev.
    destruct (estimateContrast_returns Math_sqrt img Hne) as [c Hc].
    unfold assessFrameQuality. rewrite Hc, Hsharp.
    eexists. split; reflexivity.
  - split; [apply valid_uniform; unfold byte_ok; lia|].
    vm_compute. reflexivity.
  - split; [apply valid_uniform; unfold byte_ok; lia|].
    split; [apply valid_uniform; unfold byte_ok; lia|].
    vm_compute. reflexivity.
Qed.

Lemma small_frame_metrics_witness :
  (width black4 <= 4 \/ height black4 <= 4) /\ valid_image black4 /\
  estimateSharpness (fun x => x) black4 = NaN.
Proof.
  split; [left; vm_compute; discriminate|].
  split; [apply valid_uniform; unfold byte_ok; lia|].
  destruct (small_frame_metrics (fun x => x) black4) as [Hsmall _].
  apply Hsmall. left. vm_compute. discriminate.
Defined.

(** ** Stability (C3) *)

(** A counted loop is a fold over the indices it visits. *)
Lemma for_loop_fold {St : Type} (body : Z -> St -> St) (m fuel : nat)
    (i bound step : Z) (s : St) :
  (m <= fuel)%nat ->
  (forall j, (j < m)%nat -> i + step * Z.of_nat j < bound) ->
  bound <= i + step * Z.of_nat m ->
  for_loop fuel i bound step body s =
  fold_left (fun t j => body j t)
    (map (fun j => i + step * Z.of_nat j) (seq 0 m)) s.
Proof.
  revert fuel i s.
  induction m as [|m IH]; intros fuel i s Hfuel Hin Hout.
  - destruct fuel; simpl; [reflexivity|].
    destruct (Z.ltb_spec i bound); [lia | reflexivity].
  - destruct fuel as [|fuel]; [lia|].
    simpl. specialize (Hin O ltac:(lia)) as Hi.
    destruct (Z.ltb_spec i bound); [|lia].
    rewrite Z.mul_0_r, Z.add_0_r.
    rewrite (IH fuel (i + step)).
    + rewrite <- seq_shift, map_map. f_equal.
      apply map_ext. intros j. lia.
    + lia.
    + intros j Hj. specialize (Hin (S j) ltac:(lia)). lia.
    + lia.
Qed.

Lemma for_upto_offsets {S : Type} (body : Z -> S -> S) (n : Z) (s : S) :
  for_upto n 16 body s =
  fold_left (fun t j => body j t) (StabilitySpec.offsets n) s.
Proof.
  unfold for_upto, StabilitySpec.offsets.
  destruct (Z.le_gt_cases n 0) as [Hn | Hn].
  - replace (Z.to_nat n) with O by lia.
    replace (Z.to_nat ((n + 15) / 16)) with O; [reflexivity|].
    assert ((n + 15) / 16 < 1) by (apply Z.div_lt_upper_bound; lia). lia.
  - assert (Hq : 0 <= (n + 15) / 16) by (apply Z.div_pos; lia).
    pose proof (Z.div_mod (n + 15) 16 ltac:(lia)) as Hdm.
    pose proof (Z.mod_pos_bound (n + 15) 16 ltac:(lia)) as Hmod.
    rewrite (for_loop_fold body (Z.to_nat ((n + 15) / 16))).
    + f_equal.
    + lia.
    + intros j Hj. lia.
    + lia.
Qed.

Lemma fold_pair_sum (d : Z -> number) (l : list Z) (t : number) (c : Z) :
  fold_left (fun acc i => let '(totalDiff, count) := acc in
                          (Js.add totalDiff (d i), count + 1)) l (t, c) =
  (fold_left Js.add (map d l) t, c + Z.of_nat (length l)).
Proof.
  revert t c. induction l as [|i l IH]; intros t c; simpl.
  - f_equal. lia.
  - rewrite IH. f_equal. lia.
Qed.

Lemma estimateStability_avg (prev curr : ImageData) :
  estimateStability (Some prev) curr =
  StabilitySpec.linear_map (StabilitySpec.avg_abs_diff rd (data prev) (data curr)).
Proof.
  unfold estimateStability, StabilitySpec.linear_map, StabilitySpec.avg_abs_diff,
    StabilitySpec.sum.
  rewrite for_upto_offsets.
  set (loop := fold_left _ _ _).
  assert (Hloop : loop = _) by
    exact (fold_pair_sum
             (fun i => Js.abs (Js.sub (rd (data prev) i) (rd (data curr) i)))
             (StabilitySpec.offsets (len (data prev))) (Js.of_Z 0) 0).
  rewrite Hloop, length_map. reflexivity.
Qed.

Lemma linear_map_zero (avgDiff : number) :
  Js.same avgDiff (Js.of_Z 0) -> Js.same (StabilitySpec.linear_map avgDiff) (Js.of_Z 100).
Proof.
  destruct avgDiff as [| |q|]; simpl; try contradiction.
  intros Hq. unfold StabilitySpec.linear_map. simpl.
  destruct (Js.Qltb _ _) eqn:E; simpl.
  - rewrite Hq. unfold inject_Z. field.
  - exfalso. apply not_true_iff_false in E. apply E.
    apply Qltb_true. rewrite Hq. reflexivity.
Qed.

Lemma linear_map_floor (avgDiff : number) :
  Js.ge avgDiff (Js.of_Z 30) = true ->
  StabilitySpec.linear_map avgDiff = Js.of_Z 0.
Proof.
  destruct avgDiff as [| |q|]; simpl; try discriminate.
  - intros Hq. apply Qle_bool_iff in Hq.
    unfold StabilitySpec.linear_map. simpl.
    destruct (Js.Qltb _ _) eqn:E; simpl; [|reflexivity].
    apply Qltb_true in E. exfalso.
    unfold inject_Z in *.
    assert (Hdiv : (q / (30 # 1) * (100 # 1) == q * (10 # 3))%Q) by field.
    rewrite Hdiv in E. lra.
  - intros _. reflexivity.
Qed.

(** C3, as the code has it.  Without a previous buffer the result is
    100.  Otherwise it is [max(0, 100 - (avgDiff / 30) * 100)], where
    [avgDiff] averages, over every fourth pixel, the absolute difference
    of the byte at the sample offset (the red channel) between the two
    buffers: an average of 0 gives 100, an average of 30 or more gives 0. *)
Theorem estimateStability_red_channel (prev curr : ImageData) :
  estimateStability None curr = Js.of_Z 100 /\
  estimateStability (Some prev) curr =
    StabilitySpec.linear_map (StabilitySpec.avg_abs_diff rd (data prev) (data curr)) /\
  (forall p, estimateStability p curr = StabilitySpec.stability_of_red p curr) /\
  (Js.same (StabilitySpec.avg_abs_diff rd (data prev) (data curr)) (Js.of_Z 0) ->
   Js.same (estimateStability (Some prev) curr) (Js.of_Z 100)) /\
  (Js.ge (StabilitySpec.avg_abs_diff rd (data prev) (data curr)) (Js.of_Z 30) = true ->
   estimateStability (Some prev) curr = Js.of_Z 0).
Proof.
  split; [reflexivity|]. split; [apply estimateStability_avg|].
  split; [intros [p|]; [apply estimateStability_avg | reflexivity]|].
  rewrite estimateStability_avg.
  split; [apply linear_map_zero | apply linear_map_floor].
Qed.

Lemma estimateStability_red_channel_witness :
  Js.same (StabilitySpec.avg_abs_diff rd (data black1) (data cyan1)) (Js.of_Z 0) /\
  Js.same (estimateStability (Some black1) cyan1) (Js.of_Z 100).
Proof.
  split; [vm_compute; reflexivity|].
  destruct (estimateStability_red_channel black1 cyan1) as (_ & _ & _ & Hzero & _).
  apply Hzero. vm_compute. reflexivity.
Defined.

(** C3 as stated fails: between a black and a cyan pixel the luminance
    changes by more than 30 while the red byte does not change, so the
    code returns 100 where the luminance reading gives 0. *)
Lemma estimateStability_not_luminance :
  Js.ge (StabilitySpec.avg_abs_diff luminosity (data black1) (data cyan1)) (Js.of_Z 30) = true /\
  StabilitySpec.stability_of_luminance (Some black1) cyan1 = Js.of_Z 0 /\
  Js.same (estimateStability (Some black1) cyan1) (Js.of_Z 100) /\
  ~ Js.same (estimateStability (Some black1) cyan1)
            (StabilitySpec.stability_of_luminance (Some black1) cyan1).
Proof.
  split; [vm_compute; reflexivity|].
  split; [vm_compute; reflexivity|].
  split; [vm_compute; reflexivity|].
  vm_compute. discriminate.
Qed.

(** ** Running hook bodies *)

Ltac run_eff :=
  cbv [mbind eff_bind mret eff_ret modify get throw try_catch state_after];
  cbv beta iota.

Lemma bind_returned {S A B : Type} (m : Eff S A) (k : A -> Eff S B) (s s' : S) (a : A) :
  m s = Returned a s' -> (m ≫= k) s = k a s'.
Proof. intros H. unfold mbind, eff_bind. rewrite H. reflexivity. Qed.

(** ** The capture loop (C4, C7) *)

Section CaptureLoop.

Variable Math_sqrt : number -> number.
Variable jpeg_base64 : ImageData -> string.
Variable minQuality : number.

Import VideoStream.

Lemma fallback_tick (s : State) (f : ImageData) :
  can_capture s -> below_threshold Math_sqrt minQuality (prevImageDataRef s) f ->
  exists s',
    tick_on Math_sqrt jpeg_base64 minQuality f s = Returned tt s' /\
    onFrameCalls s' = onFrameCalls s ++ [(toDataURL jpeg_base64 f, fallbackMetrics)] /\
    prevImageDataRef s' = Some f /\
    can_capture s'.
Proof.
  intros [[video Hvideo] [canvas [Hcanvas Hctx]]] (Hw & Hh & metrics & Hassess & Hbad).
  destruct s as [vr cr sr prev streaming err fm timer tracks con calls].
  simpl in *. subst vr cr.
  apply Z.eqb_neq in Hw, Hh.
  unfold VideoStream.tick_on, VideoStream.capture_tick,
    VideoStream.captureFrameWithQuality, VideoStream.captureFrame,
    VideoStream.getImageData, VideoStream.toDataURL.
  run_eff.
  repeat (cbn -[assessFrameQuality isFrameGoodQuality append];
          rewrite ?Hctx, ?Hw, ?Hh, ?Hassess, ?Hbad).
  eexists. split; [reflexivity|]. cbn.
  split; [reflexivity|]. split; [reflexivity|].
  split; [eexists; reflexivity | exists canvas; split; [reflexivity | exact Hctx]].
Qed.

(** C4. While the video, the canvas and its context are there, every
    tick whose frame fails the threshold still calls [onFrame], with the
    frame and the placeholder metrics
    [{brightness: 0, contrast: 0, sharpness: 0, stability: 100, score: 50}];
    so any run of consecutive failing ticks, three in particular, emits
    one frame per tick. *)
Theorem failing_ticks_emit (frames : list ImageData) (s : State) :
  can_capture s ->
  all_below_threshold Math_sqrt minQuality (prevImageDataRef s) frames ->
  exists s',
    ticks_on Math_sqrt jpeg_base64 minQuality frames s = Returned tt s' /\
    onFrameCalls s' =
      onFrameCalls s ++
      map (fun f => (toDataURL jpeg_base64 f,
                     {| brightness := Js.of_Z 0; contrast := Js.of_Z 0;
                        sharpness := Js.of_Z 0; stability := Js.of_Z 100;
                        score := Js.of_Z 50 |})) frames.
Proof.
  revert s. induction frames as [|f rest IH]; intros s Hcap Hall.
  - exists s. split; [reflexivity|]. simpl. rewrite app_nil_r. reflexivity.
  - destruct Hall as [Hf Hrest].
    destruct (fallback_tick s f Hcap Hf) as (s1 & Htick & Hcalls & Hprev & Hcap1).
    unfold fallbackMetrics in Hcalls.
    rewrite <- Hprev in Hrest.
    destruct (IH s1 Hcap1 Hrest) as (s' & Hticks & Hcalls').
    exists s'. split.
    + cbn [VideoStream.ticks_on]. rewrite (bind_returned _ _ _ _ _ Htick).
      exact Hticks.
    + rewrite Hcalls', Hcalls, <- app_assoc. reflexivity.
Qed.

End CaptureLoop.

Lemma ge_of_Z (a b : Z) : Js.ge (Js.of_Z a) (Js.of_Z b) = (b <=? a).
Proof.
  unfold Js.ge, Js.of_Z, Qle_bool, inject_Z; simpl.
  rewrite !Z.mul_1_r. reflexivity.
Qed.

(** A frame that is both too dark and too blurry scores at most 30. *)
Lemma dark_and_blurry_fails (Math_sqrt : number -> number)
    (img : ImageData) (prev : option ImageData) :
  data img <> [] ->
  Js.lt (estimateBrightness img) 30 = true ->
  Js.lt (estimateSharpness Math_sqrt img) 30 = true ->
  exists metrics,
    assessFrameQuality Math_sqrt img prev = Some metrics /\
    isFrameGoodQuality metrics 40 = false.
Proof.
  intros Hne Hb Hs.
  destruct (estimateContrast_returns Math_sqrt img Hne) as [c Hc].
  unfold assessFrameQuality. rewrite Hc.
  eexists. split; [reflexivity|].
  unfold isFrameGoodQuality. cbn [score]. rewrite final_score, ge_of_Z.
  pose proof (penalties_range (estimateBrightness img) c
                (estimateSharpness Math_sqrt img) (estimateStability prev img))
    as (_ & Hcp & _ & Hstp).
  unfold Spec.composite, Spec.brightness_penalty, Spec.sharpness_penalty.
  rewrite Hb, Hs. cbn [orb]. apply Z.leb_gt. lia.
Qed.

Lemma failing_ticks_emit_witness :
  VideoStream.can_capture VideoStream.streaming_state /\
  VideoStream.all_below_threshold (fun x => x) 40
    (VideoStream.prevImageDataRef VideoStream.streaming_state) [black8; black8; black8] /\
  exists s',
    VideoStream.ticks_on (fun x => x) (fun _ => "") 40 [black8; black8; black8]
      VideoStream.streaming_state = Returned tt s' /\
    VideoStream.onFrameCalls s' =
      [("data:image/jpeg;base64,",
        {| brightness := Js.of_Z 0; contrast := Js.of_Z 0; sharpness := Js.of_Z 0;
           stability := Js.of_Z 100; score := Js.of_Z 50 |});
       ("data:image/jpeg;base64,",
        {| brightness := Js.of_Z 0; contrast := Js.of_Z 0; sharpness := Js.of_Z 0;
           stability := Js.of_Z 100; score := Js.of_Z 50 |});
       ("data:image/jpeg;base64,",
        {| brightness := Js.of_Z 0; contrast := Js.of_Z 0; sharpness := Js.of_Z 0;
           stability := Js.of_Z 100; score := Js.of_Z 50 |})].
Proof.
  assert (Hcap : VideoStream.can_capture VideoStream.streaming_state).
  { split; [eexists; reflexivity | eexists; split; reflexivity]. }
  assert (Hall : VideoStream.all_below_threshold (fun x => x) 40
            (VideoStream.prevImageDataRef VideoStream.streaming_state)
            [black8; black8; black8]).
  { assert (Hbelow : forall prev,
              VideoStream.below_threshold (fun x => x) 40 prev black8).
    { intros prev. split; [discriminate|]. split; [discriminate|].
      apply dark_and_blurry_fails; [discriminate | lazy; reflexivity | lazy; reflexivity]. }
    exact (conj (Hbelow _) (conj (Hbelow _) (conj (Hbelow _) I))). }
  split; [exact Hcap|]. split; [exact Hall|].
  exact (failing_ticks_emit (fun x => x) (fun _ => "") 40
           [black8; black8; black8] VideoStream.streaming_state Hcap Hall).
Defined.



Section Release.

Variable onFrame : bool.
Variable frameInterval : Z.

Import VideoStream.


End Release.



(** ** Splitting at commas *)

Lemma includes_app (c : ascii) (a b : string) :
  includes c (a +:+ b) = includes c a || includes c b.
Proof.
  induction a as [|x a IH]; simpl; [reflexivity|].
  rewrite IH. apply orb_assoc.
Qed.

Lemma split_nonempty (c : ascii) (s : string) : split c s <> [].
Proof.
  destruct s as [|a s]; simpl; [discriminate|].
  destruct (Ascii.eqb a c); [discriminate|].
  destruct (split c s); discriminate.
Qed.

(** No segment of a split contains the separator. *)
Lemma split_segments (c : ascii) (s : string) :
  Forall (fun seg => includes c seg = false) (split c s).
Proof.
  induction s as [|a s IH]; simpl.
  - repeat constructor.
  - destruct (Ascii.eqb a c) eqn:E.
    + constructor; [reflexivity | exact IH].
    + destruct (split c s) as [|seg segs].
      * repeat constructor. simpl. rewrite E. reflexivity.
      * inversion IH as [|? ? Hseg Hsegs]; subst.
        constructor; [|exact Hsegs]. simpl. rewrite E. exact Hseg.
Qed.

(** A string that contains the separator splits into two segments at
    least. *)
Lemma split_second (c : ascii) (s : string) :
  includes c s = true -> exists part, split c s !! 1%nat = Some part.
Proof.
  induction s as [|a s IH]; simpl; [discriminate|].
  destruct (Ascii.eqb a c) eqn:E; simpl.
  - intros _. destruct (split c s) as [|seg segs] eqn:Es.
    + exfalso. exact (split_nonempty c s Es).
    + exists seg. reflexivity.
  - intros H. destruct (IH H) as [part Hpart].
    destruct (split c s) as [|seg segs]; [discriminate|].
    exists part. exact Hpart.
Qed.

Lemma split_no_separator (c : ascii) (s : string) :
  includes c s = false -> split c s = [s].
Proof.
  induction s as [|a s IH]; simpl; [reflexivity|].
  destruct (Ascii.eqb a c); simpl; [discriminate|].
  intros H. rewrite (IH H). reflexivity.
Qed.

Lemma split_at_first (c : ascii) (p rest : string) :
  includes c p = false ->
  split c (p +:+ String c rest) = p :: split c rest.
Proof.
  induction p as [|a p IH]; simpl.
  - intros _. rewrite Ascii.eqb_refl. reflexivity.
  - destruct (Ascii.eqb a c); simpl; [discriminate|].
    intros H. rewrite (IH H). reflexivity.
Qed.

Lemma data_uri_has_comma (d : string) :
  has_data_uri_prefix d -> includes "," d = true.
Proof.
  intros (mime & rest & ->).
  rewrite !includes_app.
  destruct (includes "," mime); reflexivity.
Qed.

(** What [sendFrame] transmits has no comma in it. *)
Lemma strip_prefix_total (base64Frame : string) :
  exists frameData,
    VisionWebSocket.strip_prefix base64Frame = Some frameData /\
    includes "," frameData = false.
Proof.
  unfold VisionWebSocket.strip_prefix.
  destruct (includes "," base64Frame) eqn:E.
  - destruct (split_second _ _ E) as [part Hpart].
    exists part. split; [exact Hpart|].
    pose proof (split_segments "," base64Frame) as Hall.
    rewrite Forall_forall in Hall. apply Hall.
    eapply list_elem_of_lookup_2. exact Hpart.
  - exists base64Frame. split; [reflexivity | exact E].
Qed.

Lemma strip_prefix_data_uri (mime body : string) :
  includes "," mime = false -> includes "," body = false ->
  VisionWebSocket.strip_prefix ("data:image/" +:+ mime +:+ ";base64," +:+ body) = Some body.
Proof.
  intros Hmime Hbody. unfold VisionWebSocket.strip_prefix.
  rewrite (data_uri_has_comma _ ltac:(eexists _, _; reflexivity)).
  change (";base64," +:+ body) with (";base64" +:+ String "," body).
  assert (Hassoc : forall a b c : string, a +:+ b +:+ c = (a +:+ b) +:+ c).
  { intros a b c. induction a as [|x a IH]; [reflexivity|].
    change (String x (a +:+ b +:+ c) = String x ((a +:+ b) +:+ c)).
    f_equal. exact IH. }
  rewrite !Hassoc, split_at_first.
  - rewrite (split_no_separator _ _ Hbody). reflexivity.
  - rewrite !includes_app, Hmime. reflexivity.
Qed.

(** ** The streaming channel (C5, C6, C10) *)

Section Channel.

Variable JSON_parse : string -> option JsonValue.
Variable sessionId : option string.
Variable onResult : bool.

Import VisionWebSocket.

Lemma current_open_handle (s : State) :
  current_open s = true ->
  exists h ws, wsRef s = Some h /\ sockets s !! h = Some ws /\ readyState ws = OPEN.
Proof.
  unfold current_open. intros H.
  destruct (wsRef s) as [h|]; [|discriminate].
  destruct (sockets s !! h) as [ws|] eqn:E; [|discriminate].
  exists h, ws. repeat split; [exact E|].
  destruct (readyState ws); try discriminate. reflexivity.
Qed.

Lemma update_socket_frame (h : nat) (f : WebSocket -> WebSocket) (s : State) :
  wsRef (update_socket h f s) = wsRef s /\
  isConnected (update_socket h f s) = isConnected s /\
  currentResult (update_socket h f s) = currentResult s /\
  isProcessing (update_socket h f s) = isProcessing s /\
  error (update_socket h f s) = error s /\
  console (update_socket h f s) = console s /\
  onResultCalls (update_socket h f s) = onResultCalls s.
Proof.
  unfold update_socket. destruct (sockets s !! h); repeat split.
Qed.

Lemma update_socket_lookup (h : nat) (f : WebSocket -> WebSocket) (s : State) (ws : WebSocket) :
  sockets s !! h = Some ws ->
  sockets (update_socket h f s) !! h = Some (f ws) /\
  forall h', h' <> h -> sockets (update_socket h f s) !! h' = sockets s !! h'.
Proof.
  intros Hws. unfold update_socket. rewrite Hws. cbn. split.
  - apply list_lookup_insert_eq. eapply lookup_lt_Some, Hws.
  - intros h' Hne. apply list_lookup_insert_ne. congruence.
Qed.

(** C6. On an open channel [sendFrame] hands exactly one message to
    the current socket, [{type: "frame", data, session_id}], whose
    [data] has no comma and so no [data:image/...;base64,] prefix; the
    hook's own state is untouched.  A frame without a comma is sent as
    it is; otherwise [data] is the second segment of [split(',')], which
    for a data URI is the part after the prefix.  On a channel that is
    not open it only logs. *)
Theorem sendFrame_payload (s : State) (base64Frame : string) :
  (current_open s = true ->
   exists h ws frameData s',
     wsRef s = Some h /\ sockets s !! h = Some ws /\
     sendFrame sessionId base64Frame s = Returned tt s' /\
     sockets s' !! h =
       Some (ws_send (mkOutMessage "frame" (Some frameData) sessionId) ws) /\
     (forall h', h' <> h -> sockets s' !! h' = sockets s !! h') /\
     includes "," frameData = false /\
     ~ has_data_uri_prefix frameData /\
     (includes "," base64Frame = false -> frameData = base64Frame) /\
     (includes "," base64Frame = true ->
        split "," base64Frame !! 1%nat = Some frameData) /\
     (forall mime body, includes "," mime = false -> includes "," body = false ->
        base64Frame = "data:image/" +:+ mime +:+ ";base64," +:+ body ->
        frameData = body) /\
     wsRef s' = wsRef s /\ isConnected s' = isConnected s /\
     currentResult s' = currentResult s /\ isProcessing s' = isProcessing s /\
     error s' = error s) /\
  (current_open s = false ->
   exists s',
     sendFrame sessionId base64Frame s = Returned tt s' /\
     same_state s s' /\
     console s' = console s ++ ["WebSocket not open, cannot send frame"]).
Proof.
  split; intros Hopen.
  - destruct (current_open_handle s Hopen) as (h & ws & Href & Hws & _).
    destruct (strip_prefix_total base64Frame) as (frameData & Hstrip & Hcomma).
    set (msg := mkOutMessage "frame" (Some frameData) sessionId).
    set (s1 := console_log "Sending frame to WebSocket" s).
    assert (Hws1 : sockets s1 !! h = Some ws) by exact Hws.
    destruct (update_socket_frame h (ws_send msg) s1) as (F1 & F2 & F3 & F4 & F5 & _).
    destruct (update_socket_lookup h (ws_send msg) s1 ws Hws1) as [L1 L2].
    exists h, ws, frameData, (update_socket h (ws_send msg) s1).
    split; [exact Href|]. split; [exact Hws|].
    split; [unfold sendFrame; run_eff; rewrite Hopen, Hstrip, Href; reflexivity|].
    split; [exact L1|]. split; [exact L2|]. split; [exact Hcomma|].
    split; [intros Hprefix; apply data_uri_has_comma in Hprefix; congruence|].
    split.
    { intros Hwhole. unfold strip_prefix in Hstrip. rewrite Hwhole in Hstrip.
      congruence. }
    split.
    { intros Hsplit. unfold strip_prefix in Hstrip. rewrite Hsplit in Hstrip.
      exact Hstrip. }
    split.
    { intros mime body Hmime Hbody ->.
      rewrite (strip_prefix_data_uri mime body Hmime Hbody) in Hstrip.
      congruence. }
    rewrite F1, F2, F3, F4, F5. repeat split.
  - unfold sendFrame. run_eff. rewrite Hopen.
    eexists. split; [reflexivity|].
    split; [repeat split | reflexivity].
Qed.

(** C5. [onmessage] never throws.  A message that parses is handled
    by its [type]: [processing_started] sets [isProcessing];
    [token]/[partial] replace [currentResult] only; [complete],
    [error] and [dropped] replace it and clear [isProcessing];
    [low_confidence]/[quality_warning] replace it only.  A message that
    does not parse is logged and changes nothing else. *)
Theorem onmessage_dispatch (s : State) (event_data : string) :
  exists s',
    onmessage JSON_parse onResult event_data s = Returned tt s' /\
    sockets s' = sockets s /\ wsRef s' = wsRef s /\
    isConnected s' = isConnected s /\ error s' = error s /\
    match JSON_parse event_data with
    | Some (JObject data) =>
        console s' = console s /\
        (type data = Some "processing_started" ->
           isProcessing s' = true /\ currentResult s' = currentResult s) /\
        (type data = Some "token" \/ type data = Some "partial" ->
           currentResult s' = Some data /\ isProcessing s' = isProcessing s) /\
        (type data = Some "complete" ->
           currentResult s' = Some data /\ isProcessing s' = false) /\
        (type data = Some "error" \/ type data = Some "dropped" ->
           currentResult s' = Some data /\ isProcessing s' = false) /\
        (type data = Some "low_confidence" \/ type data = Some "quality_warning" ->
           currentResult s' = Some data /\ isProcessing s' = isProcessing s)
    | _ =>
        same_state s s' /\ exists line, console s' = console s ++ [line]
    end.
Proof.
  unfold onmessage. run_eff.
  destruct (JSON_parse event_data) as [[|data]|].
  - eexists. split; [reflexivity|]. cbn.
    repeat split; eexists; reflexivity.
  - unfold type_is.
    destruct (type data) as [t|] eqn:Et.
    + destruct (String.eqb_spec t "processing_started");
        [|destruct (String.eqb_spec t "token");
          [|destruct (String.eqb_spec t "partial");
            [|destruct (String.eqb_spec t "complete");
              [|destruct (String.eqb_spec t "error");
                [|destruct (String.eqb_spec t "dropped");
                  [|destruct (String.eqb_spec t "low_confidence");
                    [|destruct (String.eqb_spec t "quality_warning")]]]]]]];
        subst; cbn; destruct onResult; cbn;
        (eexists; split; [reflexivity|]; cbn;
         repeat split; try reflexivity;
         intros; repeat match goal with
                        | H : _ \/ _ |- _ => destruct H
                        | H : Some _ = Some _ |- _ => injection H as H
                        end; congruence).
    + cbn. destruct onResult; cbn;
        (eexists; split; [reflexivity|]; cbn;
         repeat split; try reflexivity;
         intros; repeat match goal with
                        | H : _ \/ _ |- _ => destruct H
                        end; discriminate).
  - eexists. split; [reflexivity|]. cbn.
    repeat split; eexists; reflexivity.
Qed.

End Channel.

Lemma onmessage_dispatch_witness :
  type complete_message = Some "complete" /\
  VisionWebSocket.isProcessing VisionWebSocket.processing_state = true /\
  exists s',
    VisionWebSocket.onmessage sample_parse true "<complete 0.82>"
      VisionWebSocket.processing_state = Returned tt s' /\
    VisionWebSocket.isProcessing s' = false /\
    VisionWebSocket.currentResult s' = Some complete_message.
Proof.
  split; [reflexivity|]. split; [reflexivity|].
  destruct (onmessage_dispatch sample_parse true VisionWebSocket.processing_state
              "<complete 0.82>") as (s' & Hrun & _ & _ & _ & _ & Hcase).
  exists s'. split; [exact Hrun|].
  cbn in Hcase. destruct Hcase as (_ & _ & _ & Hcomplete & _).
  destruct (Hcomplete eq_refl) as [Hres Hproc].
  split; assumption.
Defined.

Lemma sendFrame_payload_witness :
  VisionWebSocket.current_open VisionWebSocket.processing_state = true /\
  exists s',
    VisionWebSocket.sendFrame None "data:image/jpeg;base64,QUJD"
      VisionWebSocket.processing_state = Returned tt s' /\
    VisionWebSocket.sockets s' !! 0%nat =
      Some (VisionWebSocket.mkWebSocket VisionWebSocket.OPEN true
              [VisionWebSocket.mkOutMessage "frame" (Some "QUJD") None]).
Proof.
  split; [reflexivity|].
  destruct (sendFrame_payload None VisionWebSocket.processing_state
              "data:image/jpeg;base64,QUJD") as [Hopen _].
  destruct (Hopen eq_refl)
    as (h & ws & frameData & s' & Href & Hws & Hrun & Hsent & _ & _ & _ & _ & _ & Hbody & _).
  exists s'. split; [exact Hrun|].
  injection Href as <-. injection Hws as <-.
  rewrite Hsent, (Hbody "jpeg" "QUJD" eq_refl eq_refl eq_refl). reflexivity.
Defined.

Section Reconnect.

Variable JSON_parse : string -> option JsonValue.

Import VisionWebSocket.

(** C10, as the code has it.  [connect()] appends a new socket in
    state CONNECTING with its handlers set and makes it the current
    handle; every socket created before is left as it was, so a
    previous handle that was live stays live and keeps its handlers.
    Only [disconnect()] closes a handle, and only the current one when
    it is OPEN; it always drops the reference and clears the
    connected and processing flags, and it removes no handler. *)
Theorem connect_keeps_previous_handle (s : State) :
  (exists s',
     connect true s = Returned tt s' /\
     wsRef s' = Some (length (sockets s)) /\
     sockets s' = sockets s ++ [mkWebSocket CONNECTING true []] /\
     (forall h ws, sockets s !! h = Some ws -> sockets s' !! h = Some ws) /\
     (forall h, live s h -> live s' h) /\
     (forall h ws, sockets s !! h = Some ws -> listening ws = true -> dangling s' h)) /\
  (exists s',
     disconnect s = Returned tt s' /\
     wsRef s' = None /\ isConnected s' = false /\ isProcessing s' = false /\
     length (sockets s') = length (sockets s) /\
     (forall h ws, sockets s !! h = Some ws ->
        exists ws', sockets s' !! h = Some ws' /\
                    listening ws' = listening ws /\
                    readyState ws' =
                      (if decide (wsRef s = Some h)
                       then match readyState ws with OPEN => CLOSING | r => r end
                       else readyState ws))).
Proof.
  split.
  - unfold connect. run_eff. cbn.
    eexists. split; [reflexivity|]. cbn.
    assert (Hkeep : forall h ws, sockets s !! h = Some ws ->
              (sockets s ++ [mkWebSocket CONNECTING true []]) !! h = Some ws).
    { intros h ws Hws. rewrite lookup_app_l; [exact Hws|].
      eapply lookup_lt_Some, Hws. }
    split; [reflexivity|]. split; [reflexivity|]. split; [exact Hkeep|].
    split.
    + intros h (ws & Hws & Hlive). exists ws. split; [apply Hkeep, Hws | exact Hlive].
    + intros h ws Hws Hlisten. split.
      * cbn. intros [= Heq]. apply lookup_lt_Some in Hws. lia.
      * exists ws. split; [apply Hkeep, Hws | exact Hlisten].
  - unfold disconnect. run_eff.
    destruct (current_open s) eqn:Hopen.
    + destruct (current_open_handle s Hopen) as (h0 & ws0 & Href & Hws0 & Hready).
      rewrite Href. cbn.
      eexists. split; [reflexivity|]. cbn.
      destruct (update_socket_lookup h0 ws_close s ws0 Hws0) as [L1 L2].
      split; [reflexivity|]. split; [reflexivity|]. split; [reflexivity|].
      split.
      { unfold update_socket. rewrite Hws0. cbn. apply length_insert. }
      intros h ws Hws. destruct (decide (Some h0 = Some h)) as [[= <-]|Hne].
      * rewrite Hws0 in Hws. injection Hws as <-.
        exists (ws_close ws0). split; [exact L1|].
        unfold ws_close. rewrite Hready. split; reflexivity.
      * exists ws. rewrite L2 by congruence. repeat split. exact Hws.
    + eexists. split; [reflexivity|]. cbn.
      split; [reflexivity|]. split; [reflexivity|]. split; [reflexivity|].
      split; [reflexivity|].
      intros h ws Hws. exists ws. split; [exact Hws|]. split; [reflexivity|].
      destruct (decide (wsRef s = Some h)) as [Href|]; [|reflexivity].
      unfold current_open in Hopen. rewrite Href, Hws in Hopen.
      destruct (readyState ws); try reflexivity. discriminate.
Qed.

End Reconnect.

Lemma connect_keeps_previous_handle_witness :
  VisionWebSocket.live VisionWebSocket.processing_state 0 /\
  exists s',
    VisionWebSocket.connect true VisionWebSocket.processing_state = Returned tt s' /\
    VisionWebSocket.wsRef s' = Some 1%nat /\
    VisionWebSocket.live s' 0.
Proof.
  assert (Hlive : VisionWebSocket.live VisionWebSocket.processing_state 0).
  { eexists. split; [reflexivity | right; reflexivity]. }
  split; [exact Hlive|].
  destruct (connect_keeps_previous_handle VisionWebSocket.processing_state)
    as [(s' & Hrun & Href & _ & _ & Hstay & _) _].
  exists s'. split; [exact Hrun|]. split; [exact Href|].
  apply Hstay, Hlive.
Defined.

(** C10 as stated fails: after a second [connect()] the first socket
    is still open with its handlers set while the hook refers to the
    second, so two handles are live and the first dangles. *)
Lemma reconnect_leaves_first_handle :
  VisionWebSocket.wsRef (VisionWebSocket.reconnected sample_parse) = Some 1%nat /\
  VisionWebSocket.sockets (VisionWebSocket.reconnected sample_parse) !! 0%nat =
    Some (VisionWebSocket.mkWebSocket VisionWebSocket.OPEN true []) /\
  VisionWebSocket.live (VisionWebSocket.reconnected sample_parse) 0 /\
  VisionWebSocket.live (VisionWebSocket.reconnected sample_parse) 1 /\
  VisionWebSocket.dangling (VisionWebSocket.reconnected sample_parse) 0.
Proof.
  split; [reflexivity|]. split; [reflexivity|].
  split; [eexists; split; [reflexivity | right; reflexivity]|].
  split; [eexists; split; [reflexivity | left; reflexivity]|].
  split; [discriminate | eexists; split; reflexivity].
Qed.

(** ** The result view (C9) *)

(** C9. The result view reads one confidence value on two scales: the
    icon compares it with 70, the label shows [round(confidence * 100)].
    For 0.82 the label reads 82 while the icon is the one for a value
    below the threshold; this happens for every confidence in [0, 1].
    The success icon and background are shown exactly from 70 upwards:
    at 70 and above [check_circle] on green, below 70 (69.99 included)
    and for NaN [info] on amber. *)
Theorem confidence_two_scales :
  ResultView.confidence_percent (ResultView.confidence_of sample_detection) = 82 /\
  ResultView.header_icon (ResultView.confidence_of sample_detection) = "info" /\
  ResultView.header_background (ResultView.confidence_of sample_detection) = "bg-amber-100" /\
  (forall c : number, Js.le 0 c = true -> Js.le c 1 = true ->
     ResultView.header_icon c = "info" /\
     Js.le 0 (ResultView.confidence_percent c) = true /\
     Js.le (ResultView.confidence_percent c) 100 = true) /\
  (forall c : number, ResultView.header_icon c = "check_circle" ->
     Js.ge (ResultView.confidence_percent c) 7000 = true) /\
  (forall q : Q,
     (ResultView.header_icon (Fin q) = "check_circle" <-> (70 <= q)%Q) /\
     (ResultView.header_icon (Fin q) = "info" <-> (q < 70)%Q) /\
     (ResultView.header_background (Fin q) = "bg-green-100" <-> (70 <= q)%Q) /\
     (ResultView.header_background (Fin q) = "bg-amber-100" <-> (q < 70)%Q)) /\
  ResultView.header_icon 70 = "check_circle" /\
  ResultView.header_icon (Js.dec 6999 100) = "info" /\
  ResultView.header_icon PosInf = "check_circle" /\
  ResultView.header_icon NaN = "info".
Proof.
  split; [reflexivity|]. split; [reflexivity|]. split; [reflexivity|].
  split; [|split; [|split; [|repeat split]]].
  - intros c H0 H1. destruct c as [| |q|]; try discriminate.
    cbn in H0, H1. apply Qle_bool_iff in H0, H1.
    unfold inject_Z in H0, H1.
    assert (Hlow : (0 <= Qfloor (q * inject_Z 100 + (1 # 2)))%Z).
    { apply (Qfloor_resp_le 0). unfold inject_Z. lra. }
    assert (Hhigh : (Qfloor (q * inject_Z 100 + (1 # 2)) <= 100)%Z).
    { refine (Qfloor_resp_le _ ((100 # 1) + (1 # 2)) _). unfold inject_Z. lra. }
    split; [|split].
    + unfold ResultView.header_icon. cbn.
      destruct (Qle_bool (inject_Z 70) q) eqn:E; [|reflexivity].
      apply Qle_bool_iff in E. unfold inject_Z in E. lra.
    + apply of_Z_le, Hlow.
    + apply of_Z_le, Hhigh.
  - intros c. unfold ResultView.header_icon.
    destruct (Js.ge c 70) eqn:E; [|discriminate]. intros _.
    destruct c as [| |q|]; try discriminate; [|reflexivity].
    cbn in E. apply Qle_bool_iff in E. unfold inject_Z in E.
    change (ResultView.confidence_percent (Fin q))
      with (Js.of_Z (Qfloor (q * inject_Z 100 + (1 # 2)))).
    change (Js.ge ?a ?b) with (Js.le b a). apply of_Z_le.
    refine (Qfloor_resp_le (7000 # 1) _ _). unfold inject_Z. lra.
  - intros q.
    unfold ResultView.header_icon, ResultView.header_background.
    change (Js.ge (Fin q) 70) with (Qle_bool (inject_Z 70) q).
    destruct (Qle_bool (inject_Z 70) q) eqn:E.
    + apply Qle_bool_iff in E. unfold inject_Z in E.
      repeat split; intros H; try reflexivity; try discriminate; try lra.
    + assert (Hlt : (q < 70)%Q).
      { apply Qnot_le_lt. intros Hle.
        assert (Qle_bool (inject_Z 70) q = true) as Habs
          by (apply Qle_bool_iff; unfold inject_Z; lra).
        congruence. }
      repeat split; intros H; try reflexivity; try discriminate; try lra.
Qed.

Lemma confidence_two_scales_witness :
  Js.le 0 (Js.dec 82 100) = true /\ Js.le (Js.dec 82 100) 1 = true /\
  ResultView.header_icon (Js.dec 82 100) = "info".
Proof.
  split; [reflexivity|]. split; [reflexivity|].
  destruct confidence_two_scales as (_ & _ & _ & Hunit & _).
  apply (Hunit (Js.dec 82 100)); reflexivity.
Defined.

(** ** Ranges of the four estimators *)

(** The indices a counted loop visits lie between its start and its
    bound. *)
Lemma for_loop_invariant_idx {St : Type} (P : St -> Prop) (body : Z -> St -> St)
    (lo : Z) (fuel : nat) (i bound step : Z) (s : St) :
  0 <= step -> lo <= i -> P s ->
  (forall j t, lo <= j < bound -> P t -> P (body j t)) ->
  P (for_loop fuel i bound step body s).
Proof.
  intros Hstep Hlo Hs Hbody. revert i s Hlo Hs.
  induction fuel as [|fuel IH]; intros i s Hlo Hs; simpl; [exact Hs|].
  destruct (Z.ltb_spec i bound); [|exact Hs].
  apply IH; [lia|]. apply Hbody; [lia | exact Hs].
Qed.

Lemma rd_in_range (arr : list Z) (i : Z) :
  Forall byte_ok arr -> 0 <= i < len arr ->
  exists b, rd arr i = Js.of_Z b /\ 0 <= b <= 255.
Proof.
  intros Hbytes [Hi Hlen]. unfold rd, len in *.
  destruct (Z.ltb_spec i 0); [lia|].
  destruct (arr !! Z.to_nat i) as [b|] eqn:E.
  - exists b. split; [reflexivity|].
    rewrite Forall_forall in Hbytes. apply Hbytes.
    eapply list_elem_of_lookup_2, E.
  - apply lookup_ge_None in E. lia.
Qed.

Lemma inject_Z_bounds (b lo hi : Z) :
  lo <= b <= hi -> (inject_Z lo <= inject_Z b)%Q /\ (inject_Z b <= inject_Z hi)%Q.
Proof. intros [H1 H2]. split; rewrite <- Zle_Qle; assumption. Qed.

Lemma luminosity_range (arr : list Z) (i : Z) :
  Forall byte_ok arr -> 0 <= i -> i + 2 < len arr ->
  within 0 255 (luminosity arr i).
Proof.
  intros Hbytes Hi Hlen.
  destruct (rd_in_range arr i Hbytes ltac:(lia)) as (r & Hr' & Hr).
  destruct (rd_in_range arr (i + 1) Hbytes ltac:(lia)) as (g & Hg' & Hg).
  destruct (rd_in_range arr (i + 2) Hbytes ltac:(lia)) as (b & Hb' & Hb).
  unfold luminosity. rewrite Hr', Hg', Hb'.
  eexists. split; [reflexivity|].
  apply (inject_Z_bounds _ 0 255) in Hr, Hg, Hb.
  unfold inject_Z in *. lra.
Qed.

(** Adding up finite numbers between 0 and [M]. *)
Lemma sum_bounded (M : Q) (l : list number) (a : Q) :
  Forall (fun x => exists q, x = Fin q /\ (0 <= q)%Q /\ (q <= M)%Q) l ->
  exists s, fold_left Js.add l (Fin a) = Fin s /\
            (a <= s)%Q /\ (s <= a + M * inject_Z (Z.of_nat (length l)))%Q.
Proof.
  intros Hall. revert a.
  induction Hall as [|x l (q & -> & Hq0 & HqM) _ IH]; intros a.
  - exists a. split; [reflexivity|]. cbn [length]. change (Z.of_nat 0) with 0.
    unfold inject_Z. split; lra.
  - destruct (IH (a + q)%Q) as (s & Hs & Hlo & Hhi).
    exists s. split; [exact Hs|]. split; [lra|].
    cbn [length]. rewrite Nat2Z.inj_succ, <- Z.add_1_r, inject_Z_plus.
    unfold inject_Z at 2. lra.
Qed.

Lemma fold_left_add_map {A : Type} (f : A -> number) (l : list A) (t : number) :
  fold_left (fun acc j => Js.add acc (f j)) l t = fold_left Js.add (map f l) t.
Proof.
  revert t. induction l as [|x l IH]; intros t; simpl; [reflexivity | apply IH].
Qed.

Lemma offsets_length (n : Z) :
  0 <= n -> n mod 16 = 0 -> Z.of_nat (length (StabilitySpec.offsets n)) = n / 16.
Proof.
  intros Hn Hmod. unfold StabilitySpec.offsets.
  rewrite length_map, length_seq, Z2Nat.id.
  - pose proof (Z.div_mod n 16 ltac:(lia)) as Hdm.
    rewrite Hmod, Z.add_0_r in Hdm.
    rewrite Hdm at 1. rewrite Z.mul_comm, Z.div_add_l by lia.
    change (15 / 16) with 0. lia.
  - apply Z.div_pos; lia.
Qed.

Lemma offsets_spec (n j : Z) :
  j ∈ StabilitySpec.offsets n -> 0 <= j < n /\ j mod 16 = 0.
Proof.
  unfold StabilitySpec.offsets. rewrite list_elem_of_fmap.
  intros (k & -> & Hk). apply elem_of_seq in Hk.
  assert (Hpos : 0 < (n + 15) / 16) by lia.
  pose proof (Z.div_mod (n + 15) 16 ltac:(lia)) as Hdm.
  pose proof (Z.mod_pos_bound (n + 15) 16 ltac:(lia)) as Hmod.
  split; [lia|].
  rewrite Z.mul_comm. apply Z.mod_mul. lia.
Qed.

Lemma offsets_nonempty (n : Z) : 0 < n -> StabilitySpec.offsets n <> [].
Proof.
  intros Hn. unfold StabilitySpec.offsets.
  assert (Hpos : 0 < (n + 15) / 16).
  { apply Z.div_str_pos. lia. }
  destruct (Z.to_nat ((n + 15) / 16)) eqn:E; [lia | discriminate].
Qed.

(** Dividing a bounded sum by the number of its terms. *)
Lemma average_bounded (M s : Q) (k : Z) :
  0 < k -> (0 <= s)%Q -> (s <= M * inject_Z k)%Q ->
  exists a, Js.div (Fin s) (Js.of_Z k) = Fin a /\ (0 <= a)%Q /\ (a <= M)%Q.
Proof.
  intros Hk Hs0 HsM.
  assert (HkQ : (0 < inject_Z k)%Q) by (rewrite <- (Zlt_Qlt 0); exact Hk).
  unfold Js.div, Js.of_Z.
  destruct (Qeq_bool (inject_Z k) 0) eqn:E.
  - apply Qeq_bool_iff in E. lra.
  - eexists. split; [reflexivity|]. split.
    + apply Qle_shift_div_l; [exact HkQ | lra].
    + apply Qle_shift_div_r; [exact HkQ | exact HsM].
Qed.

Lemma valid_image_length (img : ImageData) :
  valid_image img ->
  0 < len (data img) /\ len (data img) mod 4 = 0 /\ Forall byte_ok (data img).
Proof.
  intros (Hw & Hh & Hlen & Hbytes). unfold len. rewrite Hlen.
  split; [nia|]. split; [|exact Hbytes].
  rewrite <- Z.mul_assoc, Z.mul_comm. apply Z.mod_mul. lia.
Qed.

(** A sample offset leaves room for the three colour bytes. *)
Lemma offset_room (n j : Z) :
  n mod 4 = 0 -> j ∈ StabilitySpec.offsets n -> 0 <= j /\ j + 2 < n.
Proof.
  intros Hn Hj. apply offsets_spec in Hj as [Hj Hmod].
  pose proof (Z.div_mod n 4 ltac:(lia)) as Hdn.
  pose proof (Z.div_mod j 16 ltac:(lia)) as Hdj.
  lia.
Qed.

(** X1. On a valid frame whose pixel count is a multiple of 4,
    [estimateBrightness] is a finite number in [0, 255]. *)
Theorem estimateBrightness_range (img : ImageData) :
  valid_image img -> (width img * height img) mod 4 = 0 ->
  within 0 255 (estimateBrightness img).
Proof.
  intros Hvalid Hmul.
  destruct (valid_image_length img Hvalid) as (Hpos & Hmod4 & Hbytes).
  assert (Hmod16 : len (data img) mod 16 = 0).
  { destruct Hvalid as (_ & _ & Hlen & _). unfold len. rewrite Hlen.
    pose proof (Z.div_mod (width img * height img) 4 ltac:(lia)) as Hd.
    rewrite Hmul, Z.add_0_r in Hd.
    rewrite <- Z.mul_assoc, Hd.
    replace (4 * (4 * (width img * height img / 4)))
      with ((width img * height img / 4) * 16) by lia.
    apply Z.mod_mul. lia. }
  unfold estimateBrightness.
  rewrite for_upto_offsets, fold_left_add_map.
  set (n := len (data img)) in *.
  destruct (sum_bounded 255 (map (luminosity (data img)) (StabilitySpec.offsets n)) 0)
    as (s & Hsum & Hs0 & HsM).
  { rewrite Forall_fmap, Forall_forall. intros j Hj.
    destruct (offset_room n j Hmod4 Hj) as [Hj0 Hj2].
    destruct (luminosity_range (data img) j Hbytes Hj0 Hj2) as (q & Hq & Hlo & Hhi).
    exists q. unfold inject_Z in *. repeat split; [exact Hq | lra | lra]. }
  change (Js.of_Z 0) with (Fin 0). rewrite Hsum.
  rewrite length_map, (offsets_length n ltac:(lia) Hmod16) in HsM.
  pose proof (Z.div_mod n 16 ltac:(lia)) as Hdn.
  rewrite Hmod16, Z.add_0_r in Hdn.
  assert (Hk : 0 < n / 16) by lia.
  assert (HkQ : (0 < inject_Z (n / 16))%Q) by (rewrite <- (Zlt_Qlt 0); exact Hk).
  assert (Hdiv : (inject_Z n / inject_Z 16 == inject_Z (n / 16))%Q).
  { rewrite Hdn at 1. rewrite inject_Z_mult. field. }
  unfold Js.div at 2. unfold Js.of_Z.
  change (Qeq_bool (inject_Z 16) 0) with false. cbv iota.
  unfold Js.div.
  destruct (Qeq_bool (inject_Z n / inject_Z 16) 0) eqn:E.
  { apply Qeq_bool_iff in E. rewrite Hdiv in E. lra. }
  eexists. split; [reflexivity|]. split.
  - apply Qle_shift_div_l; [rewrite Hdiv; exact HkQ|].
    unfold inject_Z at 1. lra.
  - apply Qle_shift_div_r; [rewrite Hdiv; exact HkQ|].
    rewrite Hdiv. unfold inject_Z at 1. lra.
Qed.

Lemma estimateBrightness_range_witness :
  valid_image black8 /\ (width black8 * height black8) mod 4 = 0 /\
  within 0 255 (estimateBrightness black8).
Proof.
  assert (Hvalid : valid_image black8)
    by (apply valid_uniform; unfold byte_ok; lia).
  split; [exact Hvalid|]. split; [reflexivity|].
  apply estimateBrightness_range; [exact Hvalid | reflexivity].
Defined.

Lemma abs_diff_range (a b : Z) :
  0 <= a <= 255 -> 0 <= b <= 255 ->
  exists q, Js.abs (Js.sub (Js.of_Z a) (Js.of_Z b)) = Fin q /\
            (0 <= q)%Q /\ (q <= 255)%Q.
Proof.
  intros Ha Hb. rewrite sub_of_Z. eexists. split; [reflexivity|].
  change (Qabs (inject_Z (a - b))) with (inject_Z (Z.abs (a - b))).
  split; [rewrite <- (Zle_Qle 0) | rewrite <- (Zle_Qle _ 255)]; lia.
Qed.

Lemma linear_map_range (a : Q) :
  (0 <= a)%Q -> within 0 100 (StabilitySpec.linear_map (Fin a)).
Proof.
  intros Ha. unfold StabilitySpec.linear_map, Js.div, Js.of_Z.
  change (Qeq_bool (inject_Z 30) 0) with false. cbv iota.
  unfold Js.mul, Js.sub, Js.max, Js.lt.
  assert (Hdiv : (a / inject_Z 30 * inject_Z 100 == a * (10 # 3))%Q)
    by (unfold inject_Z; field).
  destruct (Js.Qltb _ _) eqn:E.
  - apply Qltb_true in E. eexists. split; [reflexivity|].
    unfold inject_Z in *. split; [lra|]. rewrite Hdiv. lra.
  - exists (inject_Z 0). split; [reflexivity|]. unfold inject_Z. split; lra.
Qed.

(** X2. When the previous frame is valid and not longer than the
    current one, [estimateStability] is a finite number in [0, 100];
    when the two buffers are equal it is 100. *)
Theorem estimateStability_range (prev curr : ImageData) :
  valid_image prev -> Forall byte_ok (data curr) ->
  len (data prev) <= len (data curr) ->
  within 0 100 (estimateStability (Some prev) curr) /\
  (data curr = data prev ->
   Js.same (estimateStability (Some prev) curr) (Js.of_Z 100)).
Proof.
  intros Hvalid Hcurr Hlen.
  destruct (valid_image_length prev Hvalid) as (Hpos & Hmod4 & Hprev).
  rewrite estimateStability_avg.
  unfold StabilitySpec.avg_abs_diff, StabilitySpec.sum.
  set (n := len (data prev)) in *.
  set (diffs := map _ (StabilitySpec.offsets n)).
  assert (Hk : 0 < Z.of_nat (length diffs)).
  { subst diffs. rewrite length_map.
    pose proof (offsets_nonempty n Hpos).
    destruct (StabilitySpec.offsets n); [congruence | cbn [length]; lia]. }
  split.
  - destruct (sum_bounded 255 diffs 0) as (s & Hsum & Hs0 & HsM).
    { subst diffs. rewrite Forall_fmap, Forall_forall. intros j Hj.
      apply offsets_spec in Hj as [Hj _]. cbv beta delta [compose].
      destruct (rd_in_range (data prev) j Hprev ltac:(lia)) as (a & -> & Ha).
      destruct (rd_in_range (data curr) j Hcurr ltac:(lia)) as (b & -> & Hb).
      apply abs_diff_range; assumption. }
    change (Js.of_Z 0) with (Fin 0). rewrite Hsum.
    destruct (average_bounded 255 s _ Hk Hs0 ltac:(lra)) as (a & -> & Ha0 & _).
    apply linear_map_range, Ha0.
  - intros Heq.
    destruct (sum_bounded 0 diffs 0) as (s & Hsum & Hs0 & HsM).
    { subst diffs. rewrite Forall_fmap, Forall_forall. intros j Hj.
      apply offsets_spec in Hj as [Hj _]. cbv beta delta [compose].
      rewrite Heq.
      destruct (rd_in_range (data prev) j Hprev ltac:(lia)) as (a & -> & Ha).
      rewrite sub_of_Z, Z.sub_diag. exists (Qabs (inject_Z 0)).
      split; [reflexivity|]. split; exact (Qle_refl 0). }
    change (Js.of_Z 0) with (Fin 0). rewrite Hsum.
    destruct (average_bounded 0 s _ Hk Hs0 ltac:(lra)) as (a & -> & Ha0 & HaM).
    apply linear_map_zero. simpl. unfold inject_Z. lra.
Qed.

Lemma estimateStability_range_witness :
  valid_image black8 /\ Forall byte_ok (data black8) /\
  len (data black8) <= len (data black8) /\
  Js.same (estimateStability (Some black8) black8) (Js.of_Z 100).
Proof.
  assert (Hvalid : valid_image black8)
    by (apply valid_uniform; unfold byte_ok; lia).
  assert (Hbytes : Forall byte_ok (data black8)) by apply Hvalid.
  split; [exact Hvalid|]. split; [exact Hbytes|]. split; [lia|].
  destruct (estimateStability_range black8 black8 Hvalid Hbytes ltac:(lia))
    as [_ Hsame].
  apply Hsame. reflexivity.
Defined.

(** One sample of [estimateSharpness] at a point inside the frame. *)
Lemma gradient_sample (Math_sqrt : number -> number) (arr : list Z) (w i j : Z) (t : Q) :
  sqrt_total Math_sqrt -> Forall byte_ok arr -> (0 <= t)%Q ->
  0 <= (i * w + j) * 4 -> ((i + 1) * w + j) * 4 < len arr ->
  (i * w + j + 1) * 4 < len arr -> 0 <= w ->
  non_negative
    (Js.add (Fin t)
       (Math_sqrt
          (Js.add
             (Js.mul (Js.abs (Js.sub (rd arr ((i * w + j) * 4)) (rd arr ((i * w + j + 1) * 4))))
                     (Js.abs (Js.sub (rd arr ((i * w + j) * 4)) (rd arr ((i * w + j + 1) * 4)))))
             (Js.mul (Js.abs (Js.sub (rd arr ((i * w + j) * 4)) (rd arr (((i + 1) * w + j) * 4))))
                     (Js.abs (Js.sub (rd arr ((i * w + j) * 4)) (rd arr (((i + 1) * w + j) * 4)))))))).
Proof.
  intros Hsqrt Hbytes Ht Hidx Hdown Hright Hw.
  destruct (rd_in_range arr ((i * w + j) * 4) Hbytes ltac:(lia)) as (a & -> & Ha).
  destruct (rd_in_range arr ((i * w + j + 1) * 4) Hbytes ltac:(lia)) as (b & -> & Hb).
  destruct (rd_in_range arr (((i + 1) * w + j) * 4) Hbytes ltac:(lia)) as (c & -> & Hc).
  destruct (abs_diff_range a b Ha Hb) as (x & -> & Hx0 & _).
  destruct (abs_diff_range a c Ha Hc) as (y & -> & Hy0 & _).
  cbn [Js.mul Js.add].
  destruct (Hsqrt (x * x + y * y)%Q) as (r & -> & Hr).
  { assert (0 <= x * x)%Q by (apply Qmult_le_0_compat; assumption).
    assert (0 <= y * y)%Q by (apply Qmult_le_0_compat; assumption).
    lra. }
  eexists. split; [reflexivity|]. lra.
Qed.

(** X3. On a valid frame more than 4 pixels wide and high, and with a
    [Math.sqrt] that maps finite non-negative numbers to such numbers,
    [estimateSharpness] is a finite number in [0, 255]. *)
Theorem estimateSharpness_range (Math_sqrt : number -> number) (img : ImageData) :
  sqrt_total Math_sqrt -> valid_image img ->
  4 < width img -> 4 < height img ->
  within 0 255 (estimateSharpness Math_sqrt img).
Proof.
  intros Hsqrt Hvalid Hw Hh.
  pose proof Hvalid as (_ & _ & Hlen & Hbytes).
  fold (len (data img)) in Hlen.
  unfold estimateSharpness.
  set (inner := fun i : Z => for_upto (width img - 4) 4 _).
  set (P := fun st : number * Z => non_negative (fst st) /\ 0 <= snd st).
  set (P1 := fun st : number * Z => non_negative (fst st) /\ 1 <= snd st).
  assert (Hbody : forall i j st, 0 <= i < height img - 4 -> 0 <= j < width img - 4 ->
            P st ->
            P1 ((let '(totalGradient, count) := st in
                 (Js.add totalGradient
                    (Math_sqrt
                       (Js.add
                          (Js.mul (Js.abs (Js.sub (rd (data img) ((i * width img + j) * 4))
                                                   (rd (data img) ((i * width img + j + 1) * 4))))
                                  (Js.abs (Js.sub (rd (data img) ((i * width img + j) * 4))
                                                   (rd (data img) ((i * width img + j + 1) * 4)))))
                          (Js.mul (Js.abs (Js.sub (rd (data img) ((i * width img + j) * 4))
                                                   (rd (data img) (((i + 1) * width img + j) * 4))))
                                  (Js.abs (Js.sub (rd (data img) ((i * width img + j) * 4))
                                                   (rd (data img) (((i + 1) * width img + j) * 4))))))),
                  count + 1)))).
  { intros i j [t c] Hi Hj [(q & Hq & Hq0) Hc]. simpl in Hq, Hc. subst t.
    split; [|simpl; lia]. cbn [fst].
    apply gradient_sample; try assumption; nia. }
  assert (HP1P : forall st, P1 st -> P st).
  { intros st [H1 H2]. split; [exact H1 | lia]. }
  assert (Hinner : forall i st, 0 <= i < height img - 4 -> P st -> P1 (inner i st)).
  { intros i st Hi Hst. subst inner. cbv beta.
    rewrite for_upto_first by lia.
    apply (for_loop_invariant_idx P1 _ 0); [lia | lia | |].
    - apply (Hbody i 0 st Hi ltac:(lia) Hst).
    - intros j t Hj Ht. apply (Hbody i j t Hi Hj (HP1P _ Ht)). }
  assert (Hstart : P (Js.of_Z 0, 0)).
  { split; [|simpl; lia]. exists 0%Q. split; [reflexivity | apply Qle_refl]. }
  assert (Hloop : P1 (for_upto (height img - 4) 4 inner (Js.of_Z 0, 0))).
  { rewrite for_upto_first by lia.
    apply (for_loop_invariant_idx P1 _ 0); [lia | lia | |].
    - apply Hinner; [lia | exact Hstart].
    - intros i t Hi Ht. apply Hinner; [exact Hi | exact (HP1P _ Ht)]. }
  destruct (for_upto (height img - 4) 4 inner (Js.of_Z 0, 0)) as [total count].
  destruct Hloop as [(q & Hq & Hq0) Hcount]. simpl in Hq, Hcount. subst total.
  destruct (average_bounded q q count ltac:(lia) Hq0) as (a & -> & Ha0 & _).
  { assert (1 <= inject_Z count)%Q by (rewrite <- (Zle_Qle 1); exact Hcount).
    assert (0 <= q * (inject_Z count - 1))%Q
      by (apply Qmult_le_0_compat; [exact Hq0 | lra]).
    lra. }
  cbn [Js.mul]. unfold Js.min, Js.of_Z, Js.lt.
  destruct (Js.Qltb (a * inject_Z 2) (inject_Z 255)) eqn:E.
  - apply Qltb_true in E. eexists. split; [reflexivity|].
    unfold inject_Z in *. split; lra.
  - exists (inject_Z 255). split; [reflexivity|]. unfold inject_Z. split; lra.
Qed.

Lemma sqrt_total_identity : sqrt_total (fun x => x).
Proof. intros q Hq. exists q. split; [reflexivity | exact Hq]. Qed.

Lemma estimateSharpness_range_witness :
  sqrt_total (fun x => x) /\ valid_image black8 /\
  4 < width black8 /\ 4 < height black8 /\
  within 0 255 (estimateSharpness (fun x => x) black8).
Proof.
  assert (Hvalid : valid_image black8)
    by (apply valid_uniform; unfold byte_ok; lia).
  split; [exact sqrt_total_identity|]. split; [exact Hvalid|].
  split; [reflexivity|]. split; [reflexivity|].
  apply estimateSharpness_range;
    [exact sqrt_total_identity | exact Hvalid | reflexivity | reflexivity].
Defined.

Lemma fold_left_snoc_map {A B : Type} (f : A -> B) (l : list A) (acc : list B) :
  fold_left (fun t j => t ++ [f j]) l acc = acc ++ map f l.
Proof.
  revert acc. induction l as [|x l IH]; intros acc; simpl.
  - rewrite app_nil_r. reflexivity.
  - rewrite IH, <- app_assoc. reflexivity.
Qed.

(** The samples [estimateContrast] collects. *)
Lemma contrast_pixels (arr : list Z) :
  for_upto (len arr) 16 (fun i pixels => pixels ++ [luminosity arr i]) [] =
  map (luminosity arr) (StabilitySpec.offsets (len arr)).
Proof.
  rewrite for_upto_offsets.
  exact (fold_left_snoc_map (luminosity arr) (StabilitySpec.offsets (len arr)) []).
Qed.

(** X4. On a valid frame [estimateContrast] does not throw, and with a
    [Math.sqrt] that maps finite non-negative numbers to such numbers
    its result is finite and not negative. *)
Theorem estimateContrast_defined (Math_sqrt : number -> number) (img : ImageData) :
  sqrt_total Math_sqrt -> valid_image img ->
  exists c, estimateContrast Math_sqrt img = Some c /\ non_negative c.
Proof.
  intros Hsqrt Hvalid.
  destruct (valid_image_length img Hvalid) as (Hpos & Hmod4 & Hbytes).
  unfold estimateContrast. rewrite contrast_pixels.
  set (pixels := map _ _).
  assert (Hall : Forall (fun x => exists q, x = Fin q /\ (0 <= q)%Q /\ (q <= 255)%Q) pixels).
  { subst pixels. rewrite Forall_fmap, Forall_forall. intros j Hj.
    destruct (offset_room _ j Hmod4 Hj) as [Hj0 Hj2].
    destruct (luminosity_range (data img) j Hbytes Hj0 Hj2) as (q & Hq & Hlo & Hhi).
    exists q. unfold inject_Z in *. repeat split; [exact Hq | lra | lra]. }
  assert (Hne : pixels <> []).
  { subst pixels. pose proof (offsets_nonempty _ Hpos).
    destruct (StabilitySpec.offsets _); [congruence | discriminate]. }
  destruct pixels as [|p rest] eqn:Epix; [congruence|].
  inversion Hall as [|? ? (p0 & -> & Hp0 & Hp255) Hrest]; subst.
  destruct (sum_bounded 255 rest p0 Hrest) as (total & Htotal & Ht0 & HtM).
  cbn [reduce_add]. rewrite Htotal.
  set (n := Z.of_nat (length (Fin p0 :: rest))).
  assert (Hn : 0 < n) by (subst n; cbn [length]; lia).
  destruct (average_bounded 255 total n Hn ltac:(lra)) as (mean & -> & Hm0 & Hm255).
  { subst n. cbn [length]. rewrite Nat2Z.inj_succ, <- Z.add_1_r, inject_Z_plus.
    unfold inject_Z at 2. lra. }
  rewrite (fold_left_add_map (fun p => Js.pow2 (Js.sub p (Fin mean)))).
  destruct (sum_bounded 65025
              (map (fun p => Js.pow2 (Js.sub p (Fin mean))) (Fin p0 :: rest)) 0)
    as (v & Hv & Hv0 & HvM).
  { rewrite Forall_fmap. eapply Forall_impl; [exact Hall|].
    intros x (q & -> & Hq0 & Hq255). cbv beta delta [compose].
    eexists. split; [reflexivity|].
    assert (Hlow : (0 <= (q - mean) * (q - mean))%Q).
    { destruct (Qlt_le_dec (q - mean) 0) as [Hneg | Hnn].
      - assert (Esq : ((q - mean) * (q - mean) == (mean - q) * (mean - q))%Q) by ring.
        rewrite Esq. apply Qmult_le_0_compat; lra.
      - apply Qmult_le_0_compat; exact Hnn. }
    split; [exact Hlow|].
    assert (Hhigh : (0 <= (255 - (q - mean)) * (255 + (q - mean)))%Q)
      by (apply Qmult_le_0_compat; lra).
    assert (Eprod : ((255 - (q - mean)) * (255 + (q - mean)) ==
                     65025 - (q - mean) * (q - mean))%Q) by ring.
    rewrite Eprod in Hhigh. lra. }
  change (Js.of_Z 0) with (Fin 0). rewrite Hv.
  rewrite length_map in HvM. fold n in HvM.
  destruct (average_bounded 65025 v n Hn Hv0 ltac:(lra)) as (variance & Hvar & Hvar0 & _).
  fold (Js.of_Z n). rewrite Hvar.
  eexists. split; [reflexivity|]. apply Hsqrt, Hvar0.
Qed.

Lemma estimateContrast_defined_witness :
  sqrt_total (fun x => x) /\ valid_image black8 /\
  exists c, estimateContrast (fun x => x) black8 = Some c /\ non_negative c.
Proof.
  assert (Hvalid : valid_image black8)
    by (apply valid_uniform; unfold byte_ok; lia).
  split; [exact sqrt_total_identity|]. split; [exact Hvalid|].
  exact (estimateContrast_defined (fun x => x) black8 sqrt_total_identity Hvalid).
Defined.

(** Rounding keeps a number between two integers. *)
Lemma Qfloor_half (z : Z) : Qfloor (inject_Z z + (1 # 2)) = z.
Proof.
  unfold Qfloor, Qplus, inject_Z; simpl.
  rewrite Z.mul_1_r.
  replace (z * 2 + 1) with (1 + z * 2) by lia.
  rewrite Z.div_add by lia. reflexivity.
Qed.

Lemma round_within (lo hi : Z) (x : number) :
  within lo hi x -> within lo hi (Js.round x).
Proof.
  intros (q & -> & Hlo & Hhi). cbn [Js.round].
  eexists. split; [reflexivity|]. split; rewrite <- Zle_Qle.
  - pose proof (Qfloor_resp_le (inject_Z lo + (1 # 2)) (q + (1 # 2)) ltac:(lra)) as H.
    rewrite Qfloor_half in H. exact H.
  - pose proof (Qfloor_resp_le (q + (1 # 2)) (inject_Z hi + (1 # 2)) ltac:(lra)) as H.
    rewrite Qfloor_half in H. exact H.
Qed.

Lemma round_non_negative (x : number) : non_negative x -> non_negative (Js.round x).
Proof.
  intros (q & -> & Hq). cbn [Js.round].
  eexists. split; [reflexivity|]. rewrite <- (Zle_Qle 0).
  pose proof (Qfloor_resp_le (inject_Z 0 + (1 # 2)) (q + (1 # 2))
                ltac:(unfold inject_Z; lra)) as H.
  rewrite Qfloor_half in H. exact H.
Qed.

(** X5. For a valid frame more than 4 pixels wide and high whose pixel
    count is a multiple of 4, assessed against no previous frame or a
    valid one that is not longer, [assessFrameQuality] returns metrics
    without [NaN]: brightness and sharpness in [0, 255], contrast not
    negative, stability and score in [0, 100]. *)
Theorem assessFrameQuality_ranges (Math_sqrt : number -> number)
    (img : ImageData) (prev : option ImageData) :
  sqrt_total Math_sqrt -> valid_image img ->
  4 < width img -> 4 < height img -> (width img * height img) mod 4 = 0 ->
  comparable prev img ->
  exists m,
    assessFrameQuality Math_sqrt img prev = Some m /\
    within 0 255 (brightness m) /\ non_negative (contrast m) /\
    within 0 255 (sharpness m) /\ within 0 100 (stability m) /\
    within 0 100 (score m).
Proof.
  intros Hsqrt Hvalid Hw Hh Hmul Hprev.
  destruct (estimateContrast_defined Math_sqrt img Hsqrt Hvalid) as (c & Hc & Hc0).
  unfold assessFrameQuality. rewrite Hc.
  eexists. split; [reflexivity|]. cbn [brightness contrast sharpness stability score].
  split; [apply round_within, estimateBrightness_range; assumption|].
  split; [apply round_non_negative, Hc0|].
  split; [apply round_within, estimateSharpness_range; assumption|].
  split.
  - apply round_within. destruct prev as [p|].
    + destruct Hprev as [Hp Hlen].
      apply (estimateStability_range p img Hp); [apply Hvalid | exact Hlen].
    + exists (inject_Z 100). split; [reflexivity|]. unfold inject_Z. split; lra.
  - rewrite final_score.
    pose proof (composite_range (estimateBrightness img) c
                  (estimateSharpness Math_sqrt img) (estimateStability prev img)) as Hr.
    eexists. split; [reflexivity|]. split; rewrite <- Zle_Qle; lia.
Qed.

Lemma assessFrameQuality_ranges_witness :
  sqrt_total (fun x => x) /\ valid_image black8 /\
  comparable (Some black8) black8 /\
  exists m, assessFrameQuality (fun x => x) black8 (Some black8) = Some m /\
            within 0 100 (score m).
Proof.
  assert (Hvalid : valid_image black8)
    by (apply valid_uniform; unfold byte_ok; lia).
  assert (Hcmp : comparable (Some black8) black8) by (split; [exact Hvalid | lia]).
  split; [exact sqrt_total_identity|]. split; [exact Hvalid|]. split; [exact Hcmp|].
  destruct (assessFrameQuality_ranges (fun x => x) black8 (Some black8)
              sqrt_total_identity Hvalid ltac:(reflexivity) ltac:(reflexivity)
              ltac:(reflexivity) Hcmp) as (m & Hm & _ & _ & _ & _ & Hscore).
  exists m. split; assumption.
Defined.

(** ** Feedback and score *)

(** A rounded value below an integer threshold comes from a value
    below it, and likewise above. *)
Lemma round_lt (x : number) (k : Z) :
  Js.lt (Js.round x) (Js.of_Z k) = true -> Js.lt x (Js.of_Z k) = true.
Proof.
  destruct x as [| |q|]; cbn [Js.round]; try (intros H; exact H).
  rewrite lt_of_Z. intros H. apply Z.ltb_lt in H.
  apply Qltb_true.
  pose proof (Qlt_floor (q + (1 # 2))) as Hfl.
  assert (Hk : (inject_Z (Qfloor (q + (1 # 2)) + 1) <= inject_Z k)%Q)
    by (rewrite <- Zle_Qle; lia).
  lra.
Qed.

Lemma round_gt (x : number) (k : Z) :
  Js.lt (Js.of_Z k) (Js.round x) = true -> Js.lt (Js.of_Z k) x = true.
Proof.
  destruct x as [| |q|]; cbn [Js.round]; try (intros H; exact H).
  rewrite lt_of_Z. intros H. apply Z.ltb_lt in H.
  apply Qltb_true.
  pose proof (Qfloor_le (q + (1 # 2))) as Hfl.
  assert (Hk : (inject_Z (k + 1) <= inject_Z (Qfloor (q + (1 # 2))))%Q)
    by (rewrite <- Zle_Qle; lia).
  rewrite inject_Z_plus in Hk. unfold inject_Z at 2 in Hk. lra.
Qed.

(** X6. On the metrics [assessFrameQuality] returns, a warning of
    [getQualityFeedback] bounds the score: "Too dark" or "Too bright"
    come with a score of at most 70, "Too blurry" with at most 60,
    "Camera moving" with at most 80; "Perfect!" and "Good quality" come
    only with a score that passes the default threshold 70. *)
Theorem feedback_bounds_score (Math_sqrt : number -> number)
    (img : ImageData) (prev : option ImageData) (m : FrameMetrics) :
  assessFrameQuality Math_sqrt img prev = Some m ->
  (getQualityFeedback m = "Too dark - add more light" \/
   getQualityFeedback m = "Too bright - reduce light" ->
   Js.le (score m) 70 = true) /\
  (getQualityFeedback m = "Too blurry - focus camera" ->
   Js.le (score m) 60 = true) /\
  (getQualityFeedback m = "Camera moving - hold steady" ->
   Js.le (score m) 80 = true) /\
  (getQualityFeedback m = "Perfect! âœ“" \/ getQualityFeedback m = "Good quality" ->
   isFrameGoodQuality m 70 = true).
Proof.
  unfold assessFrameQuality. cbv zeta.
  destruct (estimateContrast Math_sqrt img) as [c|]; [|discriminate].
  intros Hm. rewrite final_score in Hm.
  apply (inj Some) in Hm. subst m.
  set (b := estimateBrightness img).
  set (s := estimateSharpness Math_sqrt img).
  set (st := estimateStability prev img).
  unfold getQualityFeedback, isFrameGoodQuality.
  cbn [brightness sharpness stability score].
  pose proof (penalties_range b c s st) as (Hb & Hc & Hs & Hst).
  assert (Hdark : Js.lt (Js.round b) 30 = true -> Spec.brightness_penalty b = 30).
  { intros H%round_lt. unfold Spec.brightness_penalty. rewrite H. reflexivity. }
  assert (Hbright : Js.gt (Js.round b) 240 = true -> Spec.brightness_penalty b = 30).
  { unfold Js.gt. intros H%round_gt. unfold Spec.brightness_penalty, Js.gt.
    rewrite H, orb_true_r. reflexivity. }
  assert (Hblur : Js.lt (Js.round s) 30 = true -> Spec.sharpness_penalty s = 40).
  { intros H%round_lt. unfold Spec.sharpness_penalty. rewrite H. reflexivity. }
  assert (Hmove : Js.lt (Js.round st) 50 = true -> Spec.stability_penalty st = 20).
  { intros H%round_lt. unfold Spec.stability_penalty. rewrite H. reflexivity. }
  destruct (Js.lt (Js.round b) 30) eqn:E1;
    [|destruct (Js.gt (Js.round b) 240) eqn:E2;
      [|destruct (Js.lt (Js.round s) 30) eqn:E3;
        [|destruct (Js.lt (Js.round st) 50) eqn:E4;
          [|destruct (Js.ge (Js.of_Z (Spec.composite b c s st)) 80) eqn:E5;
            [|destruct (Js.ge (Js.of_Z (Spec.composite b c s st)) 70) eqn:E6]]]]];
    (repeat split; intros H;
     repeat match goal with
            | H : _ \/ _ |- _ => destruct H
            end;
     try discriminate;
     try (apply of_Z_le; unfold Spec.composite;
          try specialize (Hdark eq_refl); try specialize (Hbright eq_refl);
          try specialize (Hblur eq_refl); try specialize (Hmove eq_refl); lia)).
  rewrite ge_of_Z in E5 |- *. apply Z.leb_le in E5. apply Z.leb_le. lia.
Qed.

Lemma feedback_bounds_score_witness :
  exists m,
    assessFrameQuality (fun x => x) black8 None = Some m /\
    getQualityFeedback m = "Too dark - add more light" /\
    Js.le (score m) 70 = true.
Proof.
  destruct (estimateContrast_returns (fun x => x) black8 ltac:(discriminate)) as [c Hc].
  assert (Hm : assessFrameQuality (fun x => x) black8 None =
               Some {| brightness := Js.round (estimateBrightness black8);
                       contrast := Js.round c;
                       sharpness := Js.round (estimateSharpness (fun x => x) black8);
                       stability := Js.round (estimateStability None black8);
                       score := Js.max 0 (Js.round
                                  (quality_score (estimateBrightness black8) c
                                     (estimateSharpness (fun x => x) black8)
                                     (estimateStability None black8))) |}).
  { unfold assessFrameQuality. rewrite Hc. reflexivity. }
  eexists. split; [exact Hm|].
  assert (Hdark : Js.lt (Js.round (estimateBrightness black8)) 30 = true)
    by (lazy; reflexivity).
  assert (Hfeedback : forall m, Js.lt (brightness m) 30 = true ->
            getQualityFeedback m = "Too dark - add more light").
  { intros m H. unfold getQualityFeedback. rewrite H. reflexivity. }
  split; [apply Hfeedback, Hdark|].
  destruct (feedback_bounds_score (fun x => x) black8 None _ Hm) as [Hbound _].
  apply Hbound. left. apply Hfeedback, Hdark.
Defined.

(** ** More of the capture loop *)

Section CaptureTick.

Variable Math_sqrt : number -> number.
Variable jpeg_base64 : ImageData -> string.
Variable minQuality : number.

Import VideoStream.

(** X7. With the video, the canvas and its context present and a
    frame that has pixels, a tick calls [onFrame] exactly once and
    stores the frame as the previous one: a frame that passes
    [minQuality] goes out with its own metrics, which also become
    [frameMetrics]; one that fails goes out with the placeholder and
    leaves [frameMetrics] as it was. *)
Theorem tick_emits_once (s : State) (f : ImageData) :
  can_capture s -> width f <> 0 -> height f <> 0 -> data f <> [] ->
  exists s' m,
    assessFrameQuality Math_sqrt f (prevImageDataRef s) = Some m /\
    tick_on Math_sqrt jpeg_base64 minQuality f s = Returned tt s' /\
    prevImageDataRef s' = Some f /\
    (if isFrameGoodQuality m minQuality
     then onFrameCalls s' = onFrameCalls s ++ [(toDataURL jpeg_base64 f, m)] /\
          frameMetrics s' = Some m
     else onFrameCalls s' =
            onFrameCalls s ++ [(toDataURL jpeg_base64 f, fallbackMetrics)] /\
          frameMetrics s' = frameMetrics s).
Proof.
  intros [[video Hvideo] [canvas [Hcanvas Hctx]]] Hw Hh Hdata.
  destruct (estimateContrast_returns Math_sqrt f Hdata) as [c Hc].
  assert (Hassess : exists m, assessFrameQuality Math_sqrt f (prevImageDataRef s) = Some m).
  { unfold assessFrameQuality. rewrite Hc. eexists. reflexivity. }
  destruct Hassess as [m Hm].
  destruct s as [vr cr sr prev streaming err fm timer tracks con calls].
  simpl in *. subst vr cr.
  apply Z.eqb_neq in Hw, Hh.
  unfold VideoStream.tick_on, VideoStream.capture_tick,
    VideoStream.captureFrameWithQuality, VideoStream.captureFrame,
    VideoStream.getImageData, VideoStream.toDataURL.
  run_eff.
  destruct (isFrameGoodQuality m minQuality) eqn:Hgood;
    repeat (cbn -[assessFrameQuality isFrameGoodQuality append];
            rewrite ?Hctx, ?Hw, ?Hh, ?Hm, ?Hgood);
    eexists; exists m; (split; [reflexivity|]); (split; [reflexivity|]);
    cbn; rewrite ?Hgood; repeat split.
Qed.

(** X8. Whatever a tick does, [frameMetrics] only ever holds metrics
    that passed [minQuality]. *)
Theorem tick_keeps_passing_metrics (s : State) (f : ImageData) :
  (forall m, frameMetrics s = Some m -> isFrameGoodQuality m minQuality = true) ->
  forall m,
    frameMetrics (state_after (tick_on Math_sqrt jpeg_base64 minQuality f s)) = Some m ->
    isFrameGoodQuality m minQuality = true.
Proof.
  intros Hinv m.
  destruct s as [vr cr sr prev streaming err fm timer tracks con calls].
  simpl in Hinv.
  unfold VideoStream.tick_on, VideoStream.capture_tick,
    VideoStream.captureFrameWithQuality, VideoStream.captureFrame,
    VideoStream.getImageData, VideoStream.toDataURL.
  run_eff. cbn -[assessFrameQuality isFrameGoodQuality append String.eqb].
  destruct vr as [video|]; [|cbn; apply Hinv].
  destruct cr as [[ctx]|]; [|cbn; apply Hinv].
  destruct ctx; [|cbn; apply Hinv].
  cbn -[assessFrameQuality isFrameGoodQuality append String.eqb].
  destruct ((width f =? 0) || (height f =? 0)); [cbn; apply Hinv|].
  cbn -[assessFrameQuality isFrameGoodQuality append String.eqb].
  destruct (assessFrameQuality Math_sqrt f prev) as [m0|]; [|cbn; apply Hinv].
  cbn -[assessFrameQuality isFrameGoodQuality append String.eqb].
  destruct (isFrameGoodQuality m0 minQuality) eqn:Hgood.
  - cbn. intros [= <-]. exact Hgood.
  - cbn -[String.eqb append]. destruct (String.eqb _ _); cbn; apply Hinv.
Qed.

(** X9. Without a video, a canvas or a 2d context a tick does nothing:
    no call of [onFrame], no log, no change of the previous frame.  With
    all three but a video that has no pixels yet, [getImageData] throws:
    the tick ends there, the fallback is not reached and nothing is
    emitted. *)
Theorem tick_without_picture (s : State) (f : ImageData) :
  (videoRef s = None \/ canvasRef s = None \/
   canvasRef s = Some {| context2d := false |} ->
   tick_on Math_sqrt jpeg_base64 minQuality f s = Returned tt (set_picture f s)) /\
  (can_capture s -> width f = 0 \/ height f = 0 ->
   tick_on Math_sqrt jpeg_base64 minQuality f s = Thrown "IndexSizeError" (set_picture f s)).
Proof.
  destruct s as [vr cr sr prev streaming err fm timer tracks con calls].
  unfold VideoStream.tick_on, VideoStream.capture_tick,
    VideoStream.captureFrameWithQuality, VideoStream.captureFrame,
    VideoStream.getImageData.
  run_eff. cbn -[assessFrameQuality isFrameGoodQuality append String.eqb].
  split.
  - intros H. simpl in H.
    destruct H as [-> | [-> | ->]]; [reflexivity | destruct vr; reflexivity |].
    destruct vr; reflexivity.
  - intros [[video Hv] [canvas [Hc Hctx]]] Hzero. simpl in Hv, Hc. subst vr cr.
    cbn. rewrite Hctx. cbn.
    assert (Hz : (width f =? 0) || (height f =? 0) = true).
    { destruct Hzero as [-> | ->]; [reflexivity | apply orb_true_r]. }
    rewrite Hz. reflexivity.
Qed.

End CaptureTick.

Lemma tick_emits_once_witness :
  VideoStream.can_capture VideoStream.streaming_state /\
  width black8 <> 0 /\ height black8 <> 0 /\ data black8 <> [] /\
  exists s',
    VideoStream.tick_on (fun x => x) (fun _ => "") 40 black8
      VideoStream.streaming_state = Returned tt s' /\
    VideoStream.prevImageDataRef s' = Some black8.
Proof.
  assert (Hcap : VideoStream.can_capture VideoStream.streaming_state).
  { split; [eexists; reflexivity | eexists; split; reflexivity]. }
  split; [exact Hcap|].
  split; [discriminate|]. split; [discriminate|]. split; [discriminate|].
  destruct (tick_emits_once (fun x => x) (fun _ => "") 40
              VideoStream.streaming_state black8 Hcap
              ltac:(discriminate) ltac:(discriminate) ltac:(discriminate))
    as (s' & m & _ & Hrun & Hprev & _).
  exists s'. split; assumption.
Defined.

Lemma tick_keeps_passing_metrics_witness :
  (forall m, VideoStream.frameMetrics VideoStream.streaming_state = Some m ->
             isFrameGoodQuality m 40 = true) /\
  forall m,
    VideoStream.frameMetrics
      (state_after (VideoStream.tick_on (fun x => x) (fun _ => "") 40 black8
                      VideoStream.streaming_state)) = Some m ->
    isFrameGoodQuality m 40 = true.
Proof.
  assert (Hinv : forall m,
            VideoStream.frameMetrics VideoStream.streaming_state = Some m ->
            isFrameGoodQuality m 40 = true) by (intros m; discriminate).
  split; [exact Hinv|].
  exact (tick_keeps_passing_metrics (fun x => x) (fun _ => "") 40
           VideoStream.streaming_state black8 Hinv).
Defined.

Lemma tick_without_picture_witness :
  VideoStream.can_capture VideoStream.streaming_state /\
  VideoStream.tick_on (fun x => x) (fun _ => "") 40 (uniform 0 0 0 0 0)
    VideoStream.streaming_state =
  Thrown "IndexSizeError"
    (VideoStream.set_picture (uniform 0 0 0 0 0) VideoStream.streaming_state).
Proof.
  assert (Hcap : VideoStream.can_capture VideoStream.streaming_state).
  { split; [eexists; reflexivity | eexists; split; reflexivity]. }
  split; [exact Hcap|].
  destruct (tick_without_picture (fun x => x) (fun _ => "") 40
              VideoStream.streaming_state (uniform 0 0 0 0 0)) as [_ Hthrow].
  apply Hthrow; [exact Hcap | left; reflexivity].
Defined.

(** ** Starting and stopping the stream *)

Section StreamLifecycle.

Variable onFrame : bool.
Variable frameInterval : Z.

Import VideoStream.

(** X10. [stopStream] on a hook that holds no stream changes nothing,
    and stopping twice is the same as stopping once. *)
Theorem stopStream_idempotent (s : State) :
  (streamRef s = None -> stopStream s = Returned tt s) /\
  stopStream (state_after (stopStream s)) = Returned tt (state_after (stopStream s)) /\
  stop onFrame frameInterval (stop onFrame frameInterval s) = stop onFrame frameInterval s.
Proof.
  destruct s as [vr cr sr prev streaming err fm timer tracks con calls].
  unfold stop, stopStream, capture_effect. run_eff. cbn.
  split; [intros ->; reflexivity|].
  destruct sr as [stream|], streaming, onFrame; cbn; split; reflexivity.
Qed.

(** X11. When [getUserMedia] answers while no video element is
    mounted, the tracks it hands over are live but the hook does not
    keep the stream: it is not streaming, and neither [stop()] nor
    unmount stops those tracks. *)
Theorem startStream_without_video_leaks (s : State) (stream : list nat) :
  videoRef s = None -> streamRef s = None ->
  exists s',
    startStream (inr stream) s = Returned tt s' /\
    streamRef s' = None /\ isStreaming s' = isStreaming s /\
    forall t, t ∈ stream ->
      t ∈ liveTracks s' /\
      t ∈ liveTracks (stop onFrame frameInterval s') /\
      t ∈ liveTracks (unmount s').
Proof.
  destruct s as [vr cr sr prev streaming err fm timer tracks con calls].
  simpl. intros -> ->.
  unfold startStream. run_eff. cbn.
  eexists. split; [reflexivity|]. cbn.
  split; [reflexivity|]. split; [reflexivity|].
  intros t Ht.
  assert (Hlive : t ∈ tracks ∪ list_to_set stream).
  { apply elem_of_union. right. apply elem_of_list_to_set, Ht. }
  unfold stop, stopStream, capture_effect, unmount, unmount_cleanup. run_eff. cbn.
  repeat split; try exact Hlive.
  destruct (negb streaming || negb onFrame); exact Hlive.
Qed.

(** X12. Starting with the video mounted and then stopping gives the
    camera back: the hook is streaming with the error cleared in
    between, and afterwards it holds no stream, is not streaming, has
    no timer, and the tracks that are live are those that were live
    before and are not part of the stream. *)
Theorem start_then_stop (s : State) (stream : list nat) :
  (exists video, videoRef s = Some video) ->
  exists s',
    startStream (inr stream) s = Returned tt s' /\
    streamRef s' = Some stream /\ isStreaming s' = true /\ error s' = None /\
    (forall t, t ∈ stream -> t ∈ liveTracks s') /\
    streamRef (stop onFrame frameInterval s') = None /\
    isStreaming (stop onFrame frameInterval s') = false /\
    captureTimer (stop onFrame frameInterval s') = None /\
    (forall t, t ∈ liveTracks (stop onFrame frameInterval s') <->
               t ∈ liveTracks s /\ t ∉ stream).
Proof.
  destruct s as [vr cr sr prev streaming err fm timer tracks con calls].
  simpl. intros [video ->].
  unfold startStream. run_eff. cbn.
  eexists. split; [reflexivity|]. cbn.
  split; [reflexivity|]. split; [reflexivity|]. split; [reflexivity|].
  split.
  { intros t Ht. apply elem_of_union. right. apply elem_of_list_to_set, Ht. }
  unfold stop, stopStream, capture_effect. run_eff. cbn.
  split; [reflexivity|]. split; [reflexivity|]. split; [reflexivity|].
  intros t. rewrite elem_of_difference, elem_of_union, elem_of_list_to_set.
  tauto.
Qed.

End StreamLifecycle.

Lemma stopStream_idempotent_witness :
  VideoStream.streamRef (state_after (VideoStream.stopStream VideoStream.streaming_state)) = None /\
  VideoStream.stopStream (state_after (VideoStream.stopStream VideoStream.streaming_state)) =
  Returned tt (state_after (VideoStream.stopStream VideoStream.streaming_state)).
Proof.
  split; [reflexivity|].
  destruct (stopStream_idempotent true 3000
              (state_after (VideoStream.stopStream VideoStream.streaming_state)))
    as [Hidle _].
  apply Hidle. reflexivity.
Defined.

Lemma startStream_without_video_leaks_witness :
  let idle := VideoStream.mkState None None None None false None None None ∅ [] [] in
  VideoStream.videoRef idle = None /\ VideoStream.streamRef idle = None /\
  exists s',
    VideoStream.startStream (inr [7%nat]) idle = Returned tt s' /\
    7%nat ∈ VideoStream.liveTracks (VideoStream.stop true 3000 s').
Proof.
  intros idle. split; [reflexivity|]. split; [reflexivity|].
  destruct (startStream_without_video_leaks true 3000 idle [7%nat] eq_refl eq_refl)
    as (s' & Hrun & _ & _ & Hleak).
  exists s'. split; [exact Hrun|].
  apply Hleak. apply list_elem_of_here.
Defined.

Lemma start_then_stop_witness :
  let mounted := VideoStream.mkState (Some {| VideoStream.picture := black8 |})
                   (Some {| VideoStream.context2d := true |})
                   None None false None None None ∅ [] [] in
  (exists video, VideoStream.videoRef mounted = Some video) /\
  exists s',
    VideoStream.startStream (inr [7%nat]) mounted = Returned tt s' /\
    VideoStream.streamRef (VideoStream.stop true 3000 s') = None.
Proof.
  intros mounted.
  assert (Hvideo : exists video, VideoStream.videoRef mounted = Some video)
    by (eexists; reflexivity).
  split; [exact Hvideo|].
  destruct (start_then_stop true 3000 mounted [7%nat] Hvideo)
    as (s' & Hrun & _ & _ & _ & _ & Hstop & _).
  exists s'. split; assumption.
Defined.

(** ** More of the streaming channel *)

Section ChannelMore.

Variable JSON_parse : string -> option JsonValue.
Variable sessionId : option string.

Import VisionWebSocket.

Lemma sendFrame_open (s : State) (h : nat) (ws : WebSocket) (frame : string) :
  wsRef s = Some h -> sockets s !! h = Some ws -> readyState ws = OPEN ->
  sendFrame sessionId frame s =
  Returned tt (update_socket h (ws_send (frame_message sessionId frame))
                 (console_log "Sending frame to WebSocket" s)).
Proof.
  intros Href Hws Hopen.
  assert (Hcur : current_open s = true).
  { unfold current_open. rewrite Href, Hws, Hopen. reflexivity. }
  destruct (strip_prefix_total frame) as (frameData & Hstrip & _).
  unfold sendFrame, frame_message. run_eff.
  rewrite Hcur, Hstrip, Href. reflexivity.
Qed.

Lemma sendFrame_closed (s : State) (frame : string) :
  current_open s = false ->
  sendFrame sessionId frame s =
  Returned tt (console_log "WebSocket not open, cannot send frame" s).
Proof.
  intros Hcur. unfold sendFrame. run_eff. rewrite Hcur. reflexivity.
Qed.

(** X13. Frames sent one after another on an open channel reach the
    current socket in the order of the calls, each as its own message;
    no other socket is touched and the socket stays open. *)
Theorem send_all_in_order (frames : list string) (s : State) (h : nat) (ws : WebSocket) :
  wsRef s = Some h -> sockets s !! h = Some ws -> readyState ws = OPEN ->
  exists s',
    send_all sessionId frames s = Returned tt s' /\
    wsRef s' = Some h /\
    sockets s' !! h =
      Some (mkWebSocket OPEN (listening ws)
              (sent ws ++ map (frame_message sessionId) frames)) /\
    (forall h', h' <> h -> sockets s' !! h' = sockets s !! h').
Proof.
  revert s ws. induction frames as [|f rest IH]; intros s ws Href Hws Hopen.
  - exists s. split; [reflexivity|]. split; [exact Href|].
    split; [|reflexivity]. rewrite Hws, app_nil_r. destruct ws; simpl in *.
    subst. reflexivity.
  - set (s1 := update_socket h (ws_send (frame_message sessionId f))
                 (console_log "Sending frame to WebSocket" s)).
    assert (Hws0 : sockets (console_log "Sending frame to WebSocket" s) !! h = Some ws)
      by exact Hws.
    destruct (update_socket_lookup h (ws_send (frame_message sessionId f)) _ ws Hws0)
      as [L1 L2].
    destruct (update_socket_frame h (ws_send (frame_message sessionId f))
                (console_log "Sending frame to WebSocket" s)) as (F1 & _).
    fold s1 in L1, L2, F1.
    assert (Href1 : wsRef s1 = Some h) by (rewrite F1; exact Href).
    destruct (IH s1 _ Href1 L1 Hopen) as (s' & Hrun & Href' & Hsent & Hother).
    exists s'. split.
    + cbn [send_all].
      rewrite (bind_returned _ _ _ _ _ (sendFrame_open s h ws f Href Hws Hopen)).
      exact Hrun.
    + split; [exact Href'|]. split.
      * rewrite Hsent. cbn [ws_send sent listening map].
        rewrite <- app_assoc. reflexivity.
      * intros h' Hne. rewrite (Hother h' Hne). apply L2, Hne.
Qed.

(** X14. [disconnect] on a hook without a handle and with both flags
    down changes nothing, and disconnecting twice is the same as
    disconnecting once. *)
Theorem disconnect_idempotent (s : State) :
  (wsRef s = None -> isConnected s = false -> isProcessing s = false ->
   disconnect s = Returned tt s) /\
  disconnect (state_after (disconnect s)) = Returned tt (state_after (disconnect s)).
Proof.
  destruct s as [socks ref conn cur proc err con calls].
  unfold disconnect. run_eff. split.
  - simpl. intros -> -> ->. reflexivity.
  - unfold current_open, update_socket. cbn.
    destruct ref as [h|]; [|reflexivity].
    destruct (socks !! h) as [ws|] eqn:Hws; [|reflexivity].
    destruct (readyState ws); cbn; rewrite ?Hws; reflexivity.
Qed.

(** X15. [onResult] is called exactly once, with the parsed value, for
    every message that parses to a value other than [null], whatever
    its [type]; a message of a type the handler does not know changes
    no state beyond that call.  It is never called for a message that
    does not parse. *)
Theorem onResult_once (s : State) (event_data : string) :
  match JSON_parse event_data with
  | Some (JObject data) =>
      onResultCalls (state_after (onmessage JSON_parse true event_data s)) =
        onResultCalls s ++ [data] /\
      onResultCalls (state_after (onmessage JSON_parse false event_data s)) =
        onResultCalls s /\
      (type_is data "processing_started" = false ->
       type_is data "token" = false -> type_is data "partial" = false ->
       type_is data "complete" = false -> type_is data "error" = false ->
       type_is data "dropped" = false -> type_is data "low_confidence" = false ->
       type_is data "quality_warning" = false ->
       onmessage JSON_parse true event_data s = Returned tt (call_onResult data s))
  | _ =>
      onResultCalls (state_after (onmessage JSON_parse true event_data s)) =
        onResultCalls s
  end.
Proof.
  unfold onmessage. run_eff.
  destruct (JSON_parse event_data) as [[|data]|]; [reflexivity | | reflexivity].
  split; [|split].
  - destruct (type_is data "processing_started");
      [|destruct (type_is data "token" || type_is data "partial");
        [|destruct (type_is data "complete");
          [|destruct (type_is data "error" || type_is data "dropped");
            [|destruct (type_is data "low_confidence" || type_is data "quality_warning")]]]];
      reflexivity.
  - destruct (type_is data "processing_started");
      [|destruct (type_is data "token" || type_is data "partial");
        [|destruct (type_is data "complete");
          [|destruct (type_is data "error" || type_is data "dropped");
            [|destruct (type_is data "low_confidence" || type_is data "quality_warning")]]]];
      reflexivity.
  - intros -> -> -> -> -> -> -> ->. reflexivity.
Qed.

(** X16. A close event of any socket that still has its handlers
    clears [isConnected] and [isProcessing], also when the hook refers
    to another socket: that socket stays open and current while the
    hook reports the channel as disconnected. *)
Theorem stale_close_event (s : State) (h : nat) (ws : WebSocket) :
  sockets s !! h = Some ws -> listening ws = true ->
  exists s',
    dispatch JSON_parse true h EvClose s = Returned tt s' /\
    isConnected s' = false /\ isProcessing s' = false /\
    wsRef s' = wsRef s /\
    (forall h', h' <> h -> sockets s' !! h' = sockets s !! h') /\
    (wsRef s <> Some h -> current_open s' = current_open s).
Proof.
  intros Hws Hlisten.
  unfold dispatch, onclose. run_eff. rewrite Hws, Hlisten. cbn.
  destruct (update_socket_lookup h (set_readyState CLOSED) s ws Hws) as [L1 L2].
  destruct (update_socket_frame h (set_readyState CLOSED) s) as (F1 & _).
  eexists. split; [reflexivity|]. cbn.
  split; [reflexivity|]. split; [reflexivity|].
  split; [exact F1|]. split; [exact L2|].
  intros Hne. unfold current_open. cbn. rewrite F1.
  destruct (wsRef s) as [h0|]; [|reflexivity].
  rewrite L2 by congruence. reflexivity.
Qed.

End ChannelMore.

Lemma send_all_in_order_witness :
  VisionWebSocket.wsRef VisionWebSocket.processing_state = Some 0%nat /\
  exists s',
    send_all None ["data:image/jpeg;base64,QQ"; "data:image/jpeg;base64,Qg"]
      VisionWebSocket.processing_state = Returned tt s' /\
    VisionWebSocket.sockets s' !! 0%nat =
      Some (VisionWebSocket.mkWebSocket VisionWebSocket.OPEN true
              [VisionWebSocket.mkOutMessage "frame" (Some "QQ") None;
               VisionWebSocket.mkOutMessage "frame" (Some "Qg") None]).
Proof.
  split; [reflexivity|].
  destruct (send_all_in_order None
              ["data:image/jpeg;base64,QQ"; "data:image/jpeg;base64,Qg"]
              VisionWebSocket.processing_state 0 _ eq_refl eq_refl eq_refl)
    as (s' & Hrun & _ & Hsent & _).
  exists s'. split; [exact Hrun | exact Hsent].
Defined.

Lemma disconnect_idempotent_witness :
  VisionWebSocket.wsRef VisionWebSocket.initial = None /\
  VisionWebSocket.disconnect VisionWebSocket.initial =
  Returned tt VisionWebSocket.initial.
Proof.
  split; [reflexivity|].
  destruct (disconnect_idempotent VisionWebSocket.initial) as [Hidle _].
  apply Hidle; reflexivity.
Defined.

Lemma onResult_once_witness :
  VisionWebSocket.onResultCalls
    (state_after (VisionWebSocket.onmessage sample_parse true "<complete 0.82>"
                    VisionWebSocket.processing_state)) = [complete_message].
Proof.
  pose proof (onResult_once sample_parse VisionWebSocket.processing_state
                "<complete 0.82>") as H.
  cbn [sample_parse] in H.
  change (String.eqb "<complete 0.82>" "<complete 0.82>") with true in H.
  cbv iota in H. destruct H as [Hcall _]. exact Hcall.
Defined.

Lemma stale_close_event_witness :
  VisionWebSocket.sockets (VisionWebSocket.reconnected sample_parse) !! 0%nat =
    Some (VisionWebSocket.mkWebSocket VisionWebSocket.OPEN true []) /\
  exists s',
    VisionWebSocket.dispatch sample_parse true 0 VisionWebSocket.EvClose
      (VisionWebSocket.reconnected sample_parse) = Returned tt s' /\
    VisionWebSocket.isConnected s' = false /\
    VisionWebSocket.wsRef s' = Some 1%nat.
Proof.
  split; [reflexivity|].
  destruct (stale_close_event sample_parse (VisionWebSocket.reconnected sample_parse) 0 _
              eq_refl eq_refl) as (s' & Hrun & Hconn & _ & Href & _).
  exists s'. split; [exact Hrun|]. split; [exact Hconn | exact Href].
Defined.

(** ** The component *)

Section Component.

Variable JSON_parse : string -> option JsonValue.
Variable sessionId : option string.

Import VisionWebSocket.

(** X17. [handleFrame], reading the flags of the last render, hands a
    frame to the socket only when the hook is connected and not
    processing: otherwise it logs and sends nothing.  So once a
    [processing_started] message has been handled, the next frame is
    skipped. *)
Theorem handleFrame_gate (s : State) (frame : string) :
  (isConnected s = false \/ isProcessing s = true ->
   exists s',
     LiveVideoAnalysis.handleFrame_synced sessionId frame s = Returned tt s' /\
     same_state s s') /\
  (forall h ws,
     isConnected s = true -> isProcessing s = false ->
     wsRef s = Some h -> sockets s !! h = Some ws -> readyState ws = OPEN ->
     exists s',
       LiveVideoAnalysis.handleFrame_synced sessionId frame s = Returned tt s' /\
       sockets s' !! h = Some (ws_send (frame_message sessionId frame) ws)) /\
  (forall event_data data onResult,
     JSON_parse event_data = Some (JObject data) ->
     type data = Some "processing_started" ->
     exists s1 s2,
       onmessage JSON_parse onResult event_data s = Returned tt s1 /\
       LiveVideoAnalysis.handleFrame_synced sessionId frame s1 = Returned tt s2 /\
       sockets s2 = sockets s).
Proof.
  split; [|split].
  - intros Hgate.
    unfold LiveVideoAnalysis.handleFrame_synced, LiveVideoAnalysis.handleFrame.
    run_eff. cbn.
    assert (Hcond : isConnected s && negb (isProcessing s) = false).
    { destruct Hgate as [-> | ->]; [reflexivity | apply andb_false_r]. }
    rewrite Hcond. eexists. split; [reflexivity|]. repeat split.
  - intros h ws Hconn Hproc Href Hws Hopen.
    unfold LiveVideoAnalysis.handleFrame_synced, LiveVideoAnalysis.handleFrame.
    run_eff. cbn. rewrite Hconn, Hproc. cbn.
    set (s1 := console_log "Sending frame..." (console_log "handleFrame called" s)).
    rewrite (sendFrame_open sessionId s1 h ws frame Href Hws Hopen).
    eexists. split; [reflexivity|].
    apply (update_socket_lookup h _ _ ws). exact Hws.
  - intros event_data data onResult Hparse Htype.
    unfold onmessage, type_is. run_eff. rewrite Hparse, Htype. cbn.
    unfold LiveVideoAnalysis.handleFrame_synced, LiveVideoAnalysis.handleFrame.
    run_eff.
    destruct onResult; cbn;
      unfold call_onResult, setIsProcessing; cbn;
      eexists; eexists; (split; [reflexivity|]); cbn; rewrite andb_false_r;
      split; reflexivity.
Qed.

(** X18. [disconnect] does not close a socket that is still
    connecting.  When that socket opens afterwards, its handler sets
    [isConnected] although the hook holds no handle: [handleFrame]
    then passes its gate, but [sendFrame] finds no open handle and the
    frame is not sent. *)
Theorem disconnect_while_connecting (s : State) (h : nat) (ws : WebSocket) (frame : string) :
  wsRef s = Some h -> sockets s !! h = Some ws ->
  readyState ws = CONNECTING -> listening ws = true ->
  exists s1 s2 s3,
    disconnect s = Returned tt s1 /\
    sockets s1 = sockets s /\ wsRef s1 = None /\
    dispatch JSON_parse true h EvOpen s1 = Returned tt s2 /\
    isConnected s2 = true /\ isProcessing s2 = false /\ wsRef s2 = None /\
    sockets s2 !! h = Some (set_readyState OPEN ws) /\
    LiveVideoAnalysis.handleFrame_synced sessionId frame s2 = Returned tt s3 /\
    sockets s3 = sockets s2.
Proof.
  intros Href Hws Hconnecting Hlisten.
  assert (Hcur : current_open s = false).
  { unfold current_open. rewrite Href, Hws, Hconnecting. reflexivity. }
  set (s1 := setIsProcessing false (setIsConnected false (set_wsRef None s))).
  assert (Hws1 : sockets s1 !! h = Some ws) by exact Hws.
  destruct (update_socket_frame h (set_readyState OPEN) s1) as (F1 & _ & _ & F4 & _).
  destruct (update_socket_lookup h (set_readyState OPEN) s1 ws Hws1) as [L1 _].
  set (s1u := update_socket h (set_readyState OPEN) s1) in *.
  set (s2 := console_log "WebSocket connected" (setError None (setIsConnected true s1u))).
  assert (Hproc2 : isProcessing s2 = false) by exact F4.
  assert (Href2 : wsRef s2 = None) by exact F1.
  exists s1, s2.
  exists (console_log "WebSocket not open, cannot send frame"
            (console_log "Sending frame..." (console_log "handleFrame called" s2))).
  split; [unfold disconnect; run_eff; rewrite Hcur; reflexivity|].
  split; [reflexivity|]. split; [reflexivity|].
  split.
  { unfold dispatch, onopen. run_eff. rewrite Hws1, Hlisten. reflexivity. }
  split; [reflexivity|]. split; [exact Hproc2|]. split; [exact Href2|].
  split; [exact L1|].
  split; [|reflexivity].
  unfold LiveVideoAnalysis.handleFrame_synced, LiveVideoAnalysis.handleFrame.
  run_eff. rewrite Hproc2.
  change (isConnected s2) with true. cbn [andb negb].
  apply sendFrame_closed.
  unfold current_open.
  change (wsRef (console_log "Sending frame..." (console_log "handleFrame called" s2)))
    with (wsRef s2).
  rewrite Href2. reflexivity.
Qed.

End Component.

(** X19. The result phase reads the confidence from the [result]
    object of the [complete] message, not from the message: its icon
    and label are those of [result.confidence || 0], so a result
    without a confidence of its own shows 0 with the icon ["info"].  A
    [complete] message without a [result] switches to the result mode
    with nothing to show, and any other message leaves the view as it
    was. *)
Theorem result_phase_confidence (r : VisionResult) (v : LiveVideoAnalysis.View) :
  (type r = Some "complete" ->
   forall d, result r = Some d ->
     LiveVideoAnalysis.result_phase (LiveVideoAnalysis.onResult r v) =
       Some (ResultView.header_icon (ResultView.or_zero (det_confidence d)),
             ResultView.confidence_percent (ResultView.or_zero (det_confidence d))) /\
     (det_confidence d = None ->
      LiveVideoAnalysis.result_phase (LiveVideoAnalysis.onResult r v) =
        Some ("info", Js.of_Z 0))) /\
  (type r = Some "complete" -> result r = None ->
   LiveVideoAnalysis.mode (LiveVideoAnalysis.onResult r v) = LiveVideoAnalysis.result_mode /\
   LiveVideoAnalysis.result_phase (LiveVideoAnalysis.onResult r v) = None) /\
  (type_is r "complete" = false -> LiveVideoAnalysis.onResult r v = v).
Proof.
  unfold LiveVideoAnalysis.onResult, type_is.
  split; [|split].
  - intros -> d Hd. cbn. rewrite Hd. split; [reflexivity|].
    intros Hnone. unfold LiveVideoAnalysis.result_phase, ResultView.confidence_of.
    cbn [LiveVideoAnalysis.mode LiveVideoAnalysis.detectionResult].
    rewrite Hnone. reflexivity.
  - intros -> ->. split; reflexivity.
  - intros ->. reflexivity.
Qed.

Lemma result_phase_confidence_witness :
  type complete_message = Some "complete" /\
  LiveVideoAnalysis.result_phase
    (LiveVideoAnalysis.onResult complete_message
       (LiveVideoAnalysis.mkView LiveVideoAnalysis.streaming None)) =
  Some ("info", Js.of_Z 82).
Proof.
  split; [reflexivity|].
  destruct (result_phase_confidence complete_message
              (LiveVideoAnalysis.mkView LiveVideoAnalysis.streaming None))
    as [Hshow _].
  destruct (Hshow eq_refl sample_detection eq_refl) as [Heq _].
  rewrite Heq. reflexivity.
Defined.

Lemma handleFrame_gate_witness :
  VisionWebSocket.isProcessing VisionWebSocket.processing_state = true /\
  exists s',
    LiveVideoAnalysis.handleFrame_synced None "data:image/jpeg;base64,QQ"
      VisionWebSocket.processing_state = Returned tt s' /\
    VisionWebSocket.sockets s' = VisionWebSocket.sockets VisionWebSocket.processing_state.
Proof.
  split; [reflexivity|].
  destruct (handleFrame_gate sample_parse None VisionWebSocket.processing_state
              "data:image/jpeg;base64,QQ") as [Hskip _].
  destruct (Hskip (or_intror eq_refl)) as (s' & Hrun & Hsame).
  exists s'. split; [exact Hrun|]. symmetry. apply Hsame.
Defined.

Lemma disconnect_while_connecting_witness :
  let s := state_after (VisionWebSocket.connect true VisionWebSocket.initial) in
  VisionWebSocket.wsRef s = Some 0%nat /\
  exists s1 s2,
    VisionWebSocket.disconnect s = Returned tt s1 /\
    VisionWebSocket.dispatch sample_parse true 0 VisionWebSocket.EvOpen s1 = Returned tt s2 /\
    VisionWebSocket.isConnected s2 = true /\ VisionWebSocket.wsRef s2 = None.
Proof.
  intros s. split; [reflexivity|].
  destruct (disconnect_while_connecting sample_parse None s 0 _ "" eq_refl eq_refl
              eq_refl eq_refl)
    as (s1 & s2 & s3 & Hdis & _ & _ & Hopen & Hconn & _ & Href & _).
  exists s1, s2. repeat split; assumption.
Defined.

(** ** More on the frame payload *)

(** X20. What [sendFrame] keeps of its argument is the segment between
    the first and the second comma: anything after a second comma is
    dropped, an argument without a comma is kept whole, and stripping
    what is kept again changes nothing. *)
Theorem strip_prefix_segment (p b rest : string) :
  includes "," p = false -> includes "," b = false ->
  VisionWebSocket.strip_prefix (p +:+ String "," (b +:+ String "," rest)) = Some b /\
  VisionWebSocket.strip_prefix (p +:+ String "," b) = Some b /\
  VisionWebSocket.strip_prefix b = Some b /\
  (forall frame kept, VisionWebSocket.strip_prefix frame = Some kept ->
                      VisionWebSocket.strip_prefix kept = Some kept).
Proof.
  intros Hp Hb.
  assert (Hcomma : forall x y, includes "," (x +:+ String "," y) = true).
  { intros x y. rewrite includes_app. cbn. apply orb_true_r. }
  assert (Hwhole : forall x, includes "," x = false ->
                             VisionWebSocket.strip_prefix x = Some x).
  { intros x Hx. unfold VisionWebSocket.strip_prefix. rewrite Hx. reflexivity. }
  split; [|split; [|split]].
  - unfold VisionWebSocket.strip_prefix.
    rewrite Hcomma, (split_at_first _ _ _ Hp), (split_at_first _ _ _ Hb).
    reflexivity.
  - unfold VisionWebSocket.strip_prefix.
    rewrite Hcomma, (split_at_first _ _ _ Hp), (split_no_separator _ _ Hb).
    reflexivity.
  - apply Hwhole, Hb.
  - intros frame kept Hkept.
    destruct (strip_prefix_total frame) as (k & Hk & Hno).
    rewrite Hk in Hkept. injection Hkept as <-. apply Hwhole, Hno.
Qed.

Lemma strip_prefix_segment_witness :
  includes "," "data:image/jpeg;base64" = false /\ includes "," "QUJD" = false /\
  VisionWebSocket.strip_prefix "data:image/jpeg;base64,QUJD,tail" = Some "QUJD".
Proof.
  split; [reflexivity|]. split; [reflexivity|].
  destruct (strip_prefix_segment "data:image/jpeg;base64" "QUJD" "tail" eq_refl eq_refl)
    as [Hseg _].
  exact Hseg.
Defined.

(** ** Symmetry of the motion measure *)

Lemma rd_cases (arr : list Z) (i : Z) :
  rd arr i = NaN \/ exists b, rd arr i = Js.of_Z b.
Proof.
  unfold rd. destruct (i <? 0); [left; reflexivity|].
  destruct (arr !! Z.to_nat i) as [b|]; [right; exists b | left]; reflexivity.
Qed.

Lemma abs_diff_symmetric (x y : list Z) (i : Z) :
  Js.abs (Js.sub (rd x i) (rd y i)) = Js.abs (Js.sub (rd y i) (rd x i)).
Proof.
  destruct (rd_cases x i) as [-> | [a ->]], (rd_cases y i) as [-> | [b ->]];
    try reflexivity.
  rewrite !sub_of_Z.
  change (Fin (inject_Z (Z.abs (a - b))) = Fin (inject_Z (Z.abs (b - a)))).
  do 2 f_equal. lia.
Qed.

(** X21. Between two buffers of the same length [estimateStability]
    does not depend on which one is the previous frame. *)
Theorem estimateStability_symmetric (a b : ImageData) :
  len (data a) = len (data b) ->
  estimateStability (Some a) b = estimateStability (Some b) a.
Proof.
  intros Hlen. rewrite !estimateStability_avg.
  unfold StabilitySpec.avg_abs_diff. rewrite Hlen.
  rewrite (map_ext _ (fun i => Js.abs (Js.sub (rd (data b) i) (rd (data a) i))))
    by (intros i; apply abs_diff_symmetric).
  reflexivity.
Qed.

Lemma estimateStability_symmetric_witness :
  len (data black1) = len (data cyan1) /\
  estimateStability (Some black1) cyan1 = estimateStability (Some cyan1) black1.
Proof.
  split; [reflexivity|].
  apply estimateStability_symmetric. reflexivity.
Defined.
